(** * Hyperion Fleet Manager: metric aggregator

    A shallow embedding of the Lambda metric aggregator
    (src/automation/lambda/metric_aggregator) and the properties of its
    scoring functions, aggregator, publisher and source clients.

    Numbers.  Python [int] is [Z].  Python [float] is modelled by the exact
    rationals [Q]: every operation is the real operation, so results are
    stated up to [Qeq] ([==]).  NaN, infinities, overflow and the binary
    representation error of IEEE doubles are outside this model.

    Exceptions.  A function that can raise returns a [result]; the only
    arithmetic exception of the scorers is [ZeroDivisionError], raised by
    [/] on a zero divisor. *)

From Stdlib Require Import ZArith QArith Qround Qminmax Qabs Lqa Lia Ascii String.
From stdpp Require Import gmap strings list pretty.

(** ** Exceptions and results *)

(** botocore's [ClientError]: [e.response] may carry an ["Error"] dict with a
    ["Code"] and a ["Message"]; [str(e)] is the rendered text. *)
Record ClientError := mkClientError {
  ce_code : option string;
  ce_message : option string;
  ce_str : string
}.

Inductive exn :=
| ZeroDivisionError
| CloudWatchClientError (msg : string)
| SSMClientError (msg : string)
| BotoClientError (e : ClientError).

Inductive result (A : Type) :=
| Ok (a : A)
| Raise (e : exn).
Arguments Ok {A} a.
Arguments Raise {A} e.

#[global] Instance result_ret : MRet result := fun A a => Ok a.
#[global] Instance result_bind : MBind result := fun A B f m =>
  match m with
  | Ok a => f a
  | Raise e => Raise e
  end.

(** [returns r q]: the call returned normally, with a value equal to [q]. *)
Definition returns (r : result Q) (q : Q) : Prop :=
  match r with
  | Ok v => Qeq v q
  | Raise _ => False
  end.

(** ** Python numerics on the rational model *)

Module Py.
Local Open Scope Q_scope.

Definition Qltb (x y : Q) : bool := negb (Qle_bool y x).

(** [a / b] on floats, and true division on ints once both are injected. *)
Definition div (a b : Q) : result Q :=
  if Qeq_bool b 0 then Raise ZeroDivisionError else Ok (a / b).

(** [min(a, b)] returns [b] only when [b < a]; [max(a, b)] returns [b] only
    when [a < b]. *)
Definition min (a b : Q) : Q := if Qltb b a then b else a.
Definition max (a b : Q) : Q := if Qltb a b then b else a.

(** Round half to even, to an integer. *)
Definition round_half_even (x : Q) : Z :=
  let f := Qfloor x in
  match Qcompare (x - inject_Z f) (1 # 2) with
  | Lt => f
  | Gt => (f + 1)%Z
  | Eq => if Z.even f then f else (f + 1)%Z
  end.

(** [round(x, ndigits)] for [ndigits >= 0]. *)
Definition round (x : Q) (ndigits : nat) : Q :=
  let p := inject_Z (10 ^ Z.of_nat ndigits) in
  inject_Z (round_half_even (x * p)) / p.

(** [float(n)] for an int [n]. *)
Definition float (n : Z) : Q := inject_Z n.

End Py.

(** ** metrics.py: enums and dataclasses *)

Open Scope Q_scope.

Inductive HealthStatus := HEALTHY | WARNING | CRITICAL | UNKNOWN.

Module ComplianceStatus.
Inductive t := COMPLIANT | NON_COMPLIANT | UNKNOWN.
#[global] Instance eq_dec : EqDecision t.
Proof. solve_decision. Defined.
End ComplianceStatus.

(** One entry of a CloudWatch dimension list: [{"Name": .., "Value": ..}]. *)
Record Dimension := mkDimension {
  dim_Name : string;
  dim_Value : string
}.

Record MetricValue := mkMetricValue {
  name : string;
  value : Q;
  unit : string;
  dimensions : list Dimension;
  timestamp : Z
}.

Record InstanceMetrics := mkInstanceMetrics {
  instance_id : string;
  instance_type : string;
  availability_zone : string;
  state : string;
  cpu_utilization : option Q;
  memory_utilization : option Q;
  disk_utilization : option Q;
  is_compliant : option bool;
  hourly_cost : Q
}.

Record FleetMetrics := mkFleetMetrics {
  total_instances : Z;
  running_instances : Z;
  stopped_instances : Z;
  pending_instances : Z;
  avg_cpu_utilization : Q;
  avg_memory_utilization : Q;
  avg_disk_utilization : Q;
  compliant_instances : Z;
  non_compliant_instances : Z;
  total_hourly_cost : Q;
  instance_metrics : list InstanceMetrics
}.

(** [FleetMetrics()] with every default. *)
Definition FleetMetrics_default : FleetMetrics :=
  mkFleetMetrics 0 0 0 0 0 0 0 0 0 0 [].

(** ** config.py: Thresholds *)

Module Thresholds.
Definition CPU_WARNING : Q := 70.0.
Definition CPU_CRITICAL : Q := 90.0.
Definition MEMORY_WARNING : Q := 75.0.
Definition MEMORY_CRITICAL : Q := 90.0.
Definition DISK_WARNING : Q := 80.0.
Definition DISK_CRITICAL : Q := 95.0.
Definition COMPLIANCE_WARNING : Q := 90.0.
Definition COMPLIANCE_CRITICAL : Q := 80.0.
Definition CPU_WEIGHT : Q := 0.30.
Definition MEMORY_WEIGHT : Q := 0.25.
Definition DISK_WEIGHT : Q := 0.20.
Definition COMPLIANCE_WEIGHT : Q := 0.25.
Definition IDLE_CPU_THRESHOLD : Q := 5.0.
Definition UNDERUTILIZED_CPU_THRESHOLD : Q := 20.0.
End Thresholds.

(** ** metrics.py: FleetHealthScore *)

Module FleetHealthScore.

Definition _calculate_utilization_health
    (utilization warning_threshold critical_threshold : Q) : result Q :=
  if Qle_bool utilization warning_threshold then
    q ← Py.div utilization warning_threshold;
    mret (100 - q * 30)
  else if Qle_bool utilization critical_threshold then
    ratio ← Py.div (utilization - warning_threshold)
                   (critical_threshold - warning_threshold);
    mret (70 - ratio * 40)
  else
    d ← Py.div (utilization - critical_threshold) 10;
    let ratio := Py.min 1.0 d in
    mret (30 - ratio * 30).

Definition _calculate_compliance_health (fleet_metrics : FleetMetrics) : result Q :=
  let total_checked :=
    (compliant_instances fleet_metrics + non_compliant_instances fleet_metrics)%Z in
  if (total_checked =? 0)%Z then mret 100.0
  else
    q ← Py.div (inject_Z (compliant_instances fleet_metrics)) (inject_Z total_checked);
    let compliance_percentage := q * 100 in
    mret compliance_percentage.

Definition calculate (fleet_metrics : FleetMetrics) : result Q :=
  if (total_instances fleet_metrics =? 0)%Z then mret 0.0
  else
    cpu_health ← _calculate_utilization_health
      (avg_cpu_utilization fleet_metrics) Thresholds.CPU_WARNING Thresholds.CPU_CRITICAL;
    memory_health ← _calculate_utilization_health
      (avg_memory_utilization fleet_metrics)
      Thresholds.MEMORY_WARNING Thresholds.MEMORY_CRITICAL;
    disk_health ← _calculate_utilization_health
      (avg_disk_utilization fleet_metrics) Thresholds.DISK_WARNING Thresholds.DISK_CRITICAL;
    compliance_health ← _calculate_compliance_health fleet_metrics;
    let health_score :=
      cpu_health * Thresholds.CPU_WEIGHT
      + memory_health * Thresholds.MEMORY_WEIGHT
      + disk_health * Thresholds.DISK_WEIGHT
      + compliance_health * Thresholds.COMPLIANCE_WEIGHT in
    mret (Py.round (Py.min 100.0 (Py.max 0.0 health_score)) 2).

Definition get_status (score : Q) : HealthStatus :=
  if Qle_bool 80 score then HEALTHY
  else if Qle_bool 60 score then WARNING
  else if Py.Qltb 0 score then CRITICAL
  else UNKNOWN.

End FleetHealthScore.

(** ** metrics.py: ComplianceScore *)

Module ComplianceScore.

Definition calculate (fleet_metrics : FleetMetrics) : result Q :=
  let total_checked :=
    (compliant_instances fleet_metrics + non_compliant_instances fleet_metrics)%Z in
  if (total_checked =? 0)%Z then mret 100.0
  else
    q ← Py.div (inject_Z (compliant_instances fleet_metrics)) (inject_Z total_checked);
    mret (Py.round (q * 100) 2).

Definition get_status (score : Q) : HealthStatus :=
  if Qle_bool Thresholds.COMPLIANCE_WARNING score then HEALTHY
  else if Qle_bool Thresholds.COMPLIANCE_CRITICAL score then WARNING
  else if Py.Qltb 0 score then CRITICAL
  else UNKNOWN.

End ComplianceScore.

(** ** metrics.py: CostEfficiencyScore *)

Module CostEfficiencyScore.

(** The three counters of the loop: idle, underutilized, well utilized. *)
Record counters := mkCounters {
  idle_count : Z;
  underutilized_count : Z;
  well_utilized_count : Z
}.

(** One iteration of [for instance in fleet_metrics.instance_metrics]. *)
Definition loop_body (c : counters) (instance : InstanceMetrics) : counters :=
  match negb (String.eqb (state instance) "running"), cpu_utilization instance with
  | true, _ | false, None => c
  | false, Some cpu =>
    if Py.Qltb cpu Thresholds.IDLE_CPU_THRESHOLD then
      mkCounters (idle_count c + 1) (underutilized_count c) (well_utilized_count c)
    else if Py.Qltb cpu Thresholds.UNDERUTILIZED_CPU_THRESHOLD then
      mkCounters (idle_count c) (underutilized_count c + 1) (well_utilized_count c)
    else
      mkCounters (idle_count c) (underutilized_count c) (well_utilized_count c + 1)
  end.

Definition calculate (fleet_metrics : FleetMetrics) : result Q :=
  if (running_instances fleet_metrics =? 0)%Z then mret 0.0
  else
    let c := fold_left loop_body (instance_metrics fleet_metrics) (mkCounters 0 0 0) in
    let total_running :=
      (idle_count c + underutilized_count c + well_utilized_count c)%Z in
    if (total_running =? 0)%Z then mret 50.0
    else
      efficiency_score ←
        Py.div (inject_Z (well_utilized_count c * 100
                          + underutilized_count c * 50
                          + idle_count c * 10))
               (inject_Z total_running);
      mret (Py.round (Py.min 100.0 (Py.max 0.0 efficiency_score)) 2).

Definition get_status (score : Q) : HealthStatus :=
  if Qle_bool 70 score then HEALTHY
  else if Qle_bool 40 score then WARNING
  else if Py.Qltb 0 score then CRITICAL
  else UNKNOWN.

End CostEfficiencyScore.

(** ** metrics.py: CapacityUtilization *)

Module CapacityUtilization.

(** One [if avg > 0: total_utilization += avg; metrics_count += 1]. *)
Definition add_if_positive (avg : Q) (acc : Q * Z) : Q * Z :=
  if Py.Qltb 0 avg then (fst acc + avg, (snd acc + 1)%Z) else acc.

Definition calculate (fleet_metrics : FleetMetrics) : result Q :=
  if (running_instances fleet_metrics =? 0)%Z then mret 0.0
  else
    let acc := (0.0, 0%Z) in
    let acc := add_if_positive (avg_cpu_utilization fleet_metrics) acc in
    let acc := add_if_positive (avg_memory_utilization fleet_metrics) acc in
    let acc := add_if_positive (avg_disk_utilization fleet_metrics) acc in
    let total_utilization := fst acc in
    let metrics_count := snd acc in
    if (metrics_count =? 0)%Z then mret 0.0
    else
      q ← Py.div total_utilization (inject_Z metrics_count);
      mret (Py.round q 2).

Definition get_status (score : Q) : HealthStatus :=
  if Qle_bool 20 score && Qle_bool score 70 then HEALTHY
  else if (Qle_bool 10 score && Py.Qltb score 20)
          || (Py.Qltb 70 score && Qle_bool score 85) then WARNING
  else if Py.Qltb 85 score || Py.Qltb score 10 then CRITICAL
  else UNKNOWN.

End CapacityUtilization.

(** ** config.py: metric and dimension names *)

Module MetricNames.
Definition CPU_UTILIZATION : string := "CPUUtilization".
Definition MEMORY_UTILIZATION : string := "MemoryUtilization".
Definition DISK_UTILIZATION : string := "DiskUtilization".
Definition INSTANCE_COUNT : string := "InstanceCount".
Definition RUNNING_INSTANCES : string := "RunningInstances".
Definition STOPPED_INSTANCES : string := "StoppedInstances".
Definition PENDING_INSTANCES : string := "PendingInstances".
Definition FLEET_HEALTH_SCORE : string := "FleetHealthScore".
Definition COMPLIANCE_SCORE : string := "ComplianceScore".
Definition COST_EFFICIENCY_SCORE : string := "CostEfficiencyScore".
Definition CAPACITY_UTILIZATION : string := "CapacityUtilization".
Definition COST_PER_INSTANCE : string := "CostPerInstance".
Definition TOTAL_FLEET_COST : string := "TotalFleetCost".
End MetricNames.

Module DimensionNames.
Definition ENVIRONMENT : string := "Environment".
Definition FLEET_NAME : string := "FleetName".
End DimensionNames.

(** ** The wall clock

    [datetime.now(timezone.utc)] reads a clock that moves between reads: the
    clock is the sequence of its readings and the number of reads so far. *)

Record Clock := mkClock {
  readings : nat -> Z;
  reads : nat
}.

Definition datetime_now (clk : Clock) : Z * Clock :=
  (readings clk (reads clk), mkClock (readings clk) (S (reads clk))).

(** ** metrics.py: MetricAggregator *)

Module MetricAggregator.

Record t := mkT {
  environment : string;
  fleet_name : string;
  default_dimensions : list Dimension
}.

Definition __init__ (environment fleet_name : string) : t :=
  mkT environment fleet_name
    [ mkDimension DimensionNames.ENVIRONMENT environment;
      mkDimension DimensionNames.FLEET_NAME fleet_name ].

Definition _create_instance_count_metrics
    (self : t) (fleet_metrics : FleetMetrics) (timestamp : Z) : list MetricValue :=
  [ mkMetricValue MetricNames.INSTANCE_COUNT
      (Py.float (total_instances fleet_metrics)) "Count"
      (default_dimensions self) timestamp;
    mkMetricValue MetricNames.RUNNING_INSTANCES
      (Py.float (running_instances fleet_metrics)) "Count"
      (default_dimensions self) timestamp;
    mkMetricValue MetricNames.STOPPED_INSTANCES
      (Py.float (stopped_instances fleet_metrics)) "Count"
      (default_dimensions self) timestamp;
    mkMetricValue MetricNames.PENDING_INSTANCES
      (Py.float (pending_instances fleet_metrics)) "Count"
      (default_dimensions self) timestamp ].

Definition _create_utilization_metrics
    (self : t) (fleet_metrics : FleetMetrics) (timestamp : Z) : list MetricValue :=
  [ mkMetricValue MetricNames.CPU_UTILIZATION
      (avg_cpu_utilization fleet_metrics) "Percent"
      (default_dimensions self) timestamp;
    mkMetricValue MetricNames.MEMORY_UTILIZATION
      (avg_memory_utilization fleet_metrics) "Percent"
      (default_dimensions self) timestamp;
    mkMetricValue MetricNames.DISK_UTILIZATION
      (avg_disk_utilization fleet_metrics) "Percent"
      (default_dimensions self) timestamp ].

Definition _create_score_metrics
    (self : t) (fleet_metrics : FleetMetrics) (timestamp : Z)
    : result (list MetricValue) :=
  health_score ← FleetHealthScore.calculate fleet_metrics;
  compliance_score ← ComplianceScore.calculate fleet_metrics;
  cost_efficiency ← CostEfficiencyScore.calculate fleet_metrics;
  capacity_util ← CapacityUtilization.calculate fleet_metrics;
  mret [ mkMetricValue MetricNames.FLEET_HEALTH_SCORE health_score "Percent"
           (default_dimensions self) timestamp;
         mkMetricValue MetricNames.COMPLIANCE_SCORE compliance_score "Percent"
           (default_dimensions self) timestamp;
         mkMetricValue MetricNames.COST_EFFICIENCY_SCORE cost_efficiency "Percent"
           (default_dimensions self) timestamp;
         mkMetricValue MetricNames.CAPACITY_UTILIZATION capacity_util "Percent"
           (default_dimensions self) timestamp ].

Definition _create_cost_metrics
    (self : t) (fleet_metrics : FleetMetrics) (timestamp : Z)
    : result (list MetricValue) :=
  cost_per_instance ←
    (if (0 <? running_instances fleet_metrics)%Z
     then Py.div (total_hourly_cost fleet_metrics)
                 (inject_Z (running_instances fleet_metrics))
     else mret 0.0);
  mret [ mkMetricValue MetricNames.COST_PER_INSTANCE (Py.round cost_per_instance 4)
           "None" (default_dimensions self) timestamp;
         mkMetricValue MetricNames.TOTAL_FLEET_COST
           (Py.round (total_hourly_cost fleet_metrics) 4)
           "None" (default_dimensions self) timestamp ].

(** [metrics.extend(..)] four times on a list that starts empty; the clock
    is read once, before anything else. *)
Definition aggregate (self : t) (fleet_metrics : FleetMetrics) (clk : Clock)
    : result (list MetricValue) * Clock :=
  let metrics : list MetricValue := [] in
  let '(timestamp, clk) := datetime_now clk in
  (let metrics := metrics ++ _create_instance_count_metrics self fleet_metrics timestamp in
   let metrics := metrics ++ _create_utilization_metrics self fleet_metrics timestamp in
   scores ← _create_score_metrics self fleet_metrics timestamp;
   let metrics := metrics ++ scores in
   costs ← _create_cost_metrics self fleet_metrics timestamp;
   let metrics := metrics ++ costs in
   mret metrics,
   clk).

End MetricAggregator.

Close Scope Q_scope.

(** ** Python lists: slices, ranges and indexing *)

(** [l[i:j]] for [0 <= i <= j]. *)
Definition slice {A} (l : list A) (i j : nat) : list A := take (j - i) (drop i l).

(** [range(0, stop, step)] for [step > 0]: [0, step, 2*step, ...] below
    [stop], that is [(stop + step - 1) // step] values. *)
Definition range_step (stop step : nat) : list nat :=
  map (fun k => k * step) (seq 0 ((stop + step - 1) / step)).

(** [[l[i : i + n] for i in range(0, len(l), n)]]: the slices taken at the
    multiples of [n]. *)
Definition chunks_of {A} (l : list A) (n : nat) : list (list A) :=
  map (fun i => slice l i (i + n)) (range_step (length l) n).

(** [l[k]] with Python's negative indices; [None] stands for [IndexError]. *)
Definition py_index {A} (l : list A) (k : Z) : option A :=
  if (0 <=? k)%Z then l !! Z.to_nat k
  else if (- Z.of_nat (length l) <=? k)%Z then l !! Z.to_nat (Z.of_nat (length l) + k)
  else None.

(** [enumerate(l)]. *)
Definition enumerate {A} (l : list A) : list (nat * A) := zip (seq 0 (length l)) l.

(** ** Python strings *)

Definition digit_value (c : ascii) : option Z :=
  let n := nat_of_ascii c in
  if (48 <=? n)%nat && (n <=? 57)%nat then Some (Z.of_nat (n - 48)) else None.

Fixpoint digits_value (s : string) (acc : Z) : option Z :=
  match s with
  | EmptyString => Some acc
  | String c rest =>
    match digit_value c with
    | Some d => digits_value rest (10 * acc + d)%Z
    | None => None
    end
  end.

(** [int(s)] on an optionally signed, non-empty run of ASCII decimal digits;
    [None] stands for [ValueError].  The other spellings [int] accepts
    (surrounding blanks, underscores between digits, non-ASCII digits) are
    read as [ValueError] here. *)
Definition py_int (s : string) : option Z :=
  match s with
  | EmptyString => None
  | String "-" EmptyString | String "+" EmptyString => None
  | String "-" rest => Z.opp <$> digits_value rest 0
  | String "+" rest => digits_value rest 0
  | _ => digits_value s 0
  end.

Definition upper_ascii (c : ascii) : ascii :=
  let n := nat_of_ascii c in
  if (97 <=? n)%nat && (n <=? 122)%nat then ascii_of_nat (n - 32) else c.

Definition lower_ascii (c : ascii) : ascii :=
  let n := nat_of_ascii c in
  if (65 <=? n)%nat && (n <=? 90)%nat then ascii_of_nat (n + 32) else c.

Fixpoint string_map (f : ascii -> ascii) (s : string) : string :=
  match s with
  | EmptyString => EmptyString
  | String c rest => String (f c) (string_map f rest)
  end.

(** [s.upper()] and [s.lower()] on ASCII text. *)
Definition upper (s : string) : string := string_map upper_ascii s.
Definition lower (s : string) : string := string_map lower_ascii s.

(** [a or b] for an optional string [a]: [None] and the empty string are
    falsy. *)
Definition py_or (a : option string) (b : string) : string :=
  match a with
  | Some s => if String.eqb s "" then b else s
  | None => b
  end.

(** ** config.py: Config (the fields the clients read) *)

Record Config := mkConfig {
  cfg_environment : string;
  cfg_region : string;
  cfg_fleet_name : string;
  cfg_metric_namespace : string;
  cfg_aggregation_period_minutes : Z
}.

(** ** Structured log records *)

Inductive LogField := LInt (n : Z) | LStr (s : string).

Record LogRecord := mkLog {
  log_level : string;
  log_message : string;
  log_extra : list (string * LogField)
}.

(** ** The CloudWatch backend, as the publisher sees it *)

Record MetricDatum := mkMetricDatum {
  MetricName : string;
  Value : Q;
  Unit : string;
  Dimensions : list Dimension;
  Timestamp : Z
}.

Definition to_cloudwatch_format (self : MetricValue) : MetricDatum :=
  mkMetricDatum (name self) (value self) (unit self) (dimensions self) (timestamp self).

(** One [PutMetricData] request. *)
Record PutRequest := mkPut {
  put_Namespace : string;
  put_MetricData : list MetricDatum
}.

(** The backend keeps every request it received and, of those, the ones it
    accepted (whose data points are now published). *)
Record Backend := mkBackend {
  received : list PutRequest;
  accepted : list PutRequest
}.

(** Which requests the backend rejects: [faults n] is the error answered to
    the request number [n] (counted from 0 over the backend's life), if any. *)
Definition Faults := nat -> option ClientError.

Definition put_metric_data (faults : Faults) (b : Backend) (req : PutRequest)
    : result () * Backend :=
  match faults (length (received b)) with
  | None => (Ok (), mkBackend (received b ++ [req]) (accepted b ++ [req]))
  | Some e => (Raise (BotoClientError e), mkBackend (received b ++ [req]) (accepted b))
  end.

(** ** cloudwatch_client.py: CloudWatchMetricClient.publish_metrics *)

Module CloudWatchMetricClient.

Definition MAX_METRICS_PER_BATCH : nat := 20.

Record World := mkWorld {
  backend : Backend;
  log : list LogRecord
}.

Definition logger (level message : string) (extra : list (string * LogField))
    (w : World) : World :=
  mkWorld (backend w) (log w ++ [mkLog level message extra]).

(** The batches of [publish_metrics]:
    [metrics[i : i + MAX] for i in range(0, len(metrics), MAX)]. *)
Definition batches_of (metrics : list MetricValue) : list (list MetricValue) :=
  chunks_of metrics MAX_METRICS_PER_BATCH.

(** The text of the error raised for a rejected batch. *)
Definition publish_error (e : ClientError) : exn :=
  let error_code := default "Unknown" (ce_code e) in
  let error_message := default (ce_str e) (ce_message e) in
  CloudWatchClientError
    ("Failed to publish metrics: " +:+ error_code +:+ " - " +:+ error_message).

(** [for batch_index, batch in enumerate(batches)], with the [raise] that
    leaves the loop. *)
Fixpoint publish_loop (faults : Faults) (namespace : string)
    (todo : list (nat * list MetricValue)) (published_count : Z) (w : World)
    : result Z * World :=
  match todo with
  | [] => (Ok published_count, w)
  | (batch_index, batch) :: todo =>
    let metric_data := map to_cloudwatch_format batch in
    match put_metric_data faults (backend w) (mkPut namespace metric_data) with
    | (Ok _, b) =>
      let published_count := (published_count + Z.of_nat (length batch))%Z in
      let w := logger "DEBUG" "Published metric batch"
                 [("batch_index", LInt (Z.of_nat batch_index));
                  ("batch_size", LInt (Z.of_nat (length batch)))]
                 (mkWorld b (log w)) in
      publish_loop faults namespace todo published_count w
    | (Raise (BotoClientError e), b) =>
      let error_code := default "Unknown" (ce_code e) in
      let error_message := default (ce_str e) (ce_message e) in
      let w := logger "ERROR" "Failed to publish metric batch"
                 [("batch_index", LInt (Z.of_nat batch_index));
                  ("error_code", LStr error_code);
                  ("error_message", LStr error_message)]
                 (mkWorld b (log w)) in
      (Raise (publish_error e), w)
    | (Raise other, b) => (Raise other, mkWorld b (log w))
    end
  end.

Definition publish_metrics (config : Config) (faults : Faults)
    (metrics : list MetricValue) (namespace : option string) (w : World)
    : result Z * World :=
  match metrics with
  | [] => (Ok 0%Z, logger "INFO" "No metrics to publish" [] w)
  | _ =>
    let namespace := py_or namespace (cfg_metric_namespace config) in
    let published_count := 0%Z in
    let batches := batches_of metrics in
    let w := logger "INFO" "Publishing metrics"
               [("total_metrics", LInt (Z.of_nat (length metrics)));
                ("batch_count", LInt (Z.of_nat (length batches)));
                ("namespace", LStr namespace)] w in
    match publish_loop faults namespace (enumerate batches) published_count w with
    | (Ok published_count, w) =>
      (Ok published_count,
       logger "INFO" "Successfully published all metrics"
         [("published_count", LInt published_count)] w)
    | (Raise e, w) => (Raise e, w)
    end
  end.

(** *** query_instance_metrics *)

Record MetricDataQuery := mkQuery {
  q_Id : string;
  q_Namespace : string;
  q_MetricName : string;
  q_InstanceId : string;
  q_Period : Z;
  q_Stat : string;
  q_ReturnData : bool
}.

(** One entry of [MetricDataResults]; a key may be missing. *)
Record MetricDataResult := mkMDResult {
  res_Id : option string;
  res_Values : option (list Q)
}.

(** [self.get_metric_data(batch_queries, start_time, end_time)] as
    [query_instance_metrics] sees it: all pages of results, or an exception
    ([CloudWatchClientError] when the backend answered with a [ClientError]).
    The time window is the same for every call and left out. *)
Definition GetMetricData := list MetricDataQuery -> result (list MetricDataResult).

Definition batch_size : nat := 500.

(** [queries.append({..})] for [idx, instance_id in enumerate(instance_ids)]. *)
Definition build_queries (instance_ids : list string)
    (metric_name namespace : string) (period : Z) (stat : string)
    : list MetricDataQuery :=
  map (fun '(idx, instance_id) =>
         let query_id := "m" +:+ pretty idx in
         mkQuery query_id namespace metric_name instance_id period stat true)
      (enumerate instance_ids).

(** The body of [for result in metric_results], in the batch that starts at [i]. *)
Definition apply_result (i : nat) (batch_instance_ids : list string)
    (results : gmap string (option Q)) (r : MetricDataResult)
    : gmap string (option Q) :=
  let query_id := default "" (res_Id r) in
  match query_id with
  | String "m" rest =>
    match py_int rest with
    | None => results                       (* ValueError: continue *)
    | Some idx =>
      match py_index batch_instance_ids (idx - Z.of_nat i) with
      | None => results                     (* IndexError: continue *)
      | Some instance_id =>
        match default [] (res_Values r) with
        | [] => results
        | v :: _ => <[instance_id := Some v]> results
        end
      end
    end
  | _ => results
  end.

(** [for i in range(0, len(queries), batch_size)]; [trace] collects the
    requests issued. *)
Fixpoint batch_loop (get_metric_data : GetMetricData)
    (queries : list MetricDataQuery) (instance_ids : list string)
    (starts : list nat) (results : gmap string (option Q))
    (trace : list (list MetricDataQuery))
    : result (gmap string (option Q)) * list (list MetricDataQuery) :=
  match starts with
  | [] => (Ok results, trace)
  | i :: starts =>
    let batch_queries := slice queries i (i + batch_size) in
    let batch_instance_ids := slice instance_ids i (i + batch_size) in
    match get_metric_data batch_queries with
    | Ok metric_results =>
      batch_loop get_metric_data queries instance_ids starts
        (fold_left (apply_result i batch_instance_ids) metric_results results)
        (trace ++ [batch_queries])
    | Raise (CloudWatchClientError _) =>     (* logger.warning; continue *)
      batch_loop get_metric_data queries instance_ids starts results
        (trace ++ [batch_queries])
    | Raise e => (Raise e, trace ++ [batch_queries])
    end
  end.

(** [{iid: None for iid in instance_ids}]. *)
Definition initial_results (instance_ids : list string) : gmap string (option Q) :=
  fold_left (fun m iid => <[iid := None]> m) instance_ids ∅.

Definition query_instance_metrics (get_metric_data : GetMetricData)
    (instance_ids : list string) (metric_name namespace : string)
    (period : Z) (stat : string)
    : result (gmap string (option Q)) * list (list MetricDataQuery) :=
  match instance_ids with
  | [] => (Ok ∅, [])
  | _ =>
    let queries := build_queries instance_ids metric_name namespace period stat in
    let results := initial_results instance_ids in
    batch_loop get_metric_data queries instance_ids
      (range_step (length queries) batch_size) results []
  end.

End CloudWatchMetricClient.

(** ** ssm_client.py: SSMInventoryClient.get_instance_compliance *)

Module SSMInventoryClient.

(** One entry of a page's ["ComplianceItems"]; ["Status"] may be missing. *)
Record ComplianceItem := mkItem {
  item_Status : option string
}.

(** What [paginator.paginate(ResourceIds=[instance_id], ..)] yields when it
    is iterated: the pages served, and then, if [failure] is set, a
    [ClientError] raised by the request for the next page. *)
Record Paginated := mkPaginated {
  pages : list (list ComplianceItem);
  failure : option ClientError
}.

(** The compliance backend: the answer to the pagination started for the
    instance at position [n] of [instance_ids], with identifier [iid]. *)
Definition ListComplianceItems := nat -> string -> Paginated.

(** [for item in page.get("ComplianceItems", [])], with its [break]. *)
Fixpoint items_loop (instance_id : string) (items : list ComplianceItem)
    (compliance_map : gmap string ComplianceStatus.t)
    : gmap string ComplianceStatus.t :=
  match items with
  | [] => compliance_map
  | item :: items =>
    let status := upper (default "UNKNOWN" (item_Status item)) in
    if String.eqb status "NON_COMPLIANT" then
      <[instance_id := ComplianceStatus.NON_COMPLIANT]> compliance_map   (* break *)
    else if String.eqb status "COMPLIANT" then
      items_loop instance_id items
        (if bool_decide (compliance_map !! instance_id = Some ComplianceStatus.UNKNOWN)
         then <[instance_id := ComplianceStatus.COMPLIANT]> compliance_map
         else compliance_map)
    else items_loop instance_id items compliance_map
  end.

(** [for page in paginator.paginate(..)]: every page served is processed. *)
Definition pages_loop (instance_id : string) (pgs : list (list ComplianceItem))
    (compliance_map : gmap string ComplianceStatus.t)
    : gmap string ComplianceStatus.t :=
  fold_left (fun m page => items_loop instance_id page m) pgs compliance_map.

(** Iterating the paginator: every page served is processed; the request
    for the page after them raises the [ClientError], if there is one. *)
Definition paginate_loop (instance_id : string) (response : Paginated)
    (compliance_map : gmap string ComplianceStatus.t)
    : result () * gmap string ComplianceStatus.t :=
  let compliance_map := pages_loop instance_id (pages response) compliance_map in
  match failure response with
  | None => (Ok (), compliance_map)
  | Some e => (Raise (BotoClientError e), compliance_map)
  end.

(** [for instance_id in instance_ids], with the inner [try]: a
    [ClientError] is logged and the loop goes on with the next instance. *)
Fixpoint instances_loop (backend : ListComplianceItems)
    (entries : list (nat * string))
    (compliance_map : gmap string ComplianceStatus.t)
    : result (gmap string ComplianceStatus.t) :=
  match entries with
  | [] => Ok compliance_map
  | (n, instance_id) :: entries =>
    match paginate_loop instance_id (backend n instance_id) compliance_map with
    | (Ok _, compliance_map) => instances_loop backend entries compliance_map
    | (Raise (BotoClientError _), compliance_map) =>   (* logger.warning; continue *)
      instances_loop backend entries compliance_map
    | (Raise other, _) => Raise other
    end
  end.

(** [{iid: ComplianceStatus.UNKNOWN for iid in instance_ids}]. *)
Definition initial_map (instance_ids : list string) : gmap string ComplianceStatus.t :=
  fold_left (fun m iid => <[iid := ComplianceStatus.UNKNOWN]> m) instance_ids ∅.

Definition get_instance_compliance (backend : ListComplianceItems)
    (instance_ids : list string) : result (gmap string ComplianceStatus.t) :=
  let compliance_map := initial_map instance_ids in
  match instance_ids with
  | [] => Ok compliance_map
  | _ =>
    match instances_loop backend (enumerate instance_ids) compliance_map with
    | Ok compliance_map => Ok compliance_map
    | Raise (BotoClientError e) =>              (* the outer except ClientError *)
      let error_code := default "Unknown" (ce_code e) in
      let error_message := default (ce_str e) (ce_message e) in
      Raise (SSMClientError
               ("Failed to get instance compliance: "
                +:+ error_code +:+ " - " +:+ error_message))
    | Raise other => Raise other
    end
  end.

End SSMInventoryClient.

(** ** ssm_client.py: EC2InstanceClient.get_instance_counts_by_state *)

Module EC2InstanceClient.

Definition initial_counts : gmap string Z :=
  <["running" := 0%Z]> (<["stopped" := 0%Z]> (<["pending" := 0%Z]>
  (<["stopping" := 0%Z]> (<["terminated" := 0%Z]> (<["shutting-down" := 0%Z]> ∅))))).

(** [if state in counts: counts[state] += 1 else: counts[state] = 1]. *)
Definition count_instance (counts : gmap string Z) (instance : InstanceMetrics)
    : gmap string Z :=
  let state := lower (state instance) in
  match counts !! state with
  | Some n => <[state := (n + 1)%Z]> counts
  | None => <[state := 1%Z]> counts
  end.

Definition get_instance_counts_by_state (instances : list InstanceMetrics)
    : gmap string Z :=
  fold_left count_instance instances initial_counts.

End EC2InstanceClient.

(** ** handler.py: _aggregate_instance_metrics *)

Module Handler.

Open Scope Q_scope.

(** [sum(values)], from [0]. *)
Definition sum (values : list Q) : Q := fold_left Qplus values 0.

(** [round(sum(values) / len(values), 2)] when [values] is not empty, and
    the field's default [0.0] otherwise. *)
Definition average (values : list Q) : result Q :=
  match values with
  | [] => mret 0.0
  | _ =>
    q ← Py.div (sum values) (inject_Z (Z.of_nat (length values)));
    mret (Py.round q 2)
  end.

(** [state_counts.get(key, 0)]. *)
Definition get0 (state_counts : gmap string Z) (key : string) : Z :=
  default 0%Z (state_counts !! key).

(** The loop over [compliance_data.values()]: (compliant, non compliant). *)
Definition count_status (acc : Z * Z) (status : ComplianceStatus.t) : Z * Z :=
  match status with
  | ComplianceStatus.COMPLIANT => ((fst acc + 1)%Z, snd acc)
  | ComplianceStatus.NON_COMPLIANT => (fst acc, (snd acc + 1)%Z)
  | ComplianceStatus.UNKNOWN => acc
  end.

Definition _aggregate_instance_metrics
    (instances : list InstanceMetrics)
    (state_counts : gmap string Z)
    (compliance_data : gmap string ComplianceStatus.t) : result FleetMetrics :=
  let total := Z.of_nat (length instances) in
  let running := get0 state_counts "running" in
  let stopped := get0 state_counts "stopped" in
  let pending := get0 state_counts "pending" in
  let running_instances :=
    filter (fun i => state i = "running"%string) instances in
  averages ←
    match running_instances with
    | [] => mret (0.0, 0.0, 0.0, 0.0)
    | _ =>
      avg_cpu ← average (omap cpu_utilization running_instances);
      avg_memory ← average (omap memory_utilization running_instances);
      avg_disk ← average (omap disk_utilization running_instances);
      mret (avg_cpu, avg_memory, avg_disk, sum (map hourly_cost running_instances))
    end;
  let '(avg_cpu, avg_memory, avg_disk, cost) := averages in
  let counts :=
    fold_left count_status (map snd (map_to_list compliance_data)) (0%Z, 0%Z) in
  mret (mkFleetMetrics total running stopped pending
          avg_cpu avg_memory avg_disk (fst counts) (snd counts) cost instances).

(** The snapshot built from a list of instance observations: the state
    counts are those of [get_instance_counts_by_state], as in
    [collect_instance_metrics], which returns [FleetMetrics()] for an empty
    fleet. *)
Definition build_snapshot (instances : list InstanceMetrics)
    (compliance_data : gmap string ComplianceStatus.t) : result FleetMetrics :=
  match instances with
  | [] => mret FleetMetrics_default
  | _ =>
    let state_counts := EC2InstanceClient.get_instance_counts_by_state instances in
    _aggregate_instance_metrics instances state_counts compliance_data
  end.

Close Scope Q_scope.

End Handler.

(** ** The specification's formulas

    These definitions follow the specification's wording; the theorems below
    compare them with the functions above. *)

Module Spec.

Open Scope Q_scope.

(** Clamp to [[0, 100]]. *)
Definition clamp (x : Q) : Q :=
  if Qlt_le_dec x 0 then 0 else if Qlt_le_dec 100 x then 100 else x.

(** The utilization health curve for a value [u], a warning threshold [w]
    and a critical threshold [c]. *)
Definition utilization_health (u w c : Q) : Q :=
  if Qlt_le_dec w u then
    if Qlt_le_dec c u then 30 - Qmin 1 ((u - c) / 10) * 30
    else 70 - ((u - w) / (c - w)) * 40
  else 100 - (u / w) * 30.

(** [compliant / (compliant + non_compliant) * 100], or [100] without
    compliance data. *)
Definition compliance_health (fm : FleetMetrics) : Q :=
  let checked := (compliant_instances fm + non_compliant_instances fm)%Z in
  if (0 <? checked)%Z
  then inject_Z (compliant_instances fm) / inject_Z checked * 100
  else 100.

Definition fleet_health_score (fm : FleetMetrics) : Q :=
  if (total_instances fm =? 0)%Z then 0
  else
    Py.round
      (clamp (0.30 * utilization_health (avg_cpu_utilization fm)
                        Thresholds.CPU_WARNING Thresholds.CPU_CRITICAL
              + 0.25 * utilization_health (avg_memory_utilization fm)
                         Thresholds.MEMORY_WARNING Thresholds.MEMORY_CRITICAL
              + 0.20 * utilization_health (avg_disk_utilization fm)
                         Thresholds.DISK_WARNING Thresholds.DISK_CRITICAL
              + 0.25 * compliance_health fm)) 2.


(** Cost efficiency: the class of an instance, if it is classified at all. *)
Inductive CpuClass := Idle | Underutilized | WellUtilized.

#[global] Instance CpuClass_eq_dec : EqDecision CpuClass.
Proof. solve_decision. Defined.

Definition classify (i : InstanceMetrics) : option CpuClass :=
  if decide (state i = "running"%string) then
    match cpu_utilization i with
    | Some cpu =>
      if Qlt_le_dec cpu 5 then Some Idle
      else if Qlt_le_dec cpu 20 then Some Underutilized
      else Some WellUtilized
    | None => None
    end
  else None.

Definition count_class (k : CpuClass) (l : list InstanceMetrics) : Z :=
  Z.of_nat (length (filter (fun i => classify i = Some k) l)).

Definition cost_efficiency_score (fm : FleetMetrics) : Q :=
  if (running_instances fm =? 0)%Z then 0
  else
    let idle := count_class Idle (instance_metrics fm) in
    let underutilized := count_class Underutilized (instance_metrics fm) in
    let well := count_class WellUtilized (instance_metrics fm) in
    let count := (idle + underutilized + well)%Z in
    if (count =? 0)%Z then 50
    else
      Py.round
        (clamp (inject_Z (well * 100 + underutilized * 50 + idle * 10)
                / inject_Z count)) 2.

(** Capacity utilization: the averages that count as present. *)
Definition present_averages (fm : FleetMetrics) : list Q :=
  List.filter (fun a => if Qlt_le_dec 0 a then true else false)
    [avg_cpu_utilization fm; avg_memory_utilization fm; avg_disk_utilization fm].

Definition mean (l : list Q) : Q :=
  fold_right Qplus 0 l / inject_Z (Z.of_nat (length l)).

Definition capacity_utilization (fm : FleetMetrics) : Q :=
  if (running_instances fm =? 0)%Z then 0
  else
    match present_averages fm with
    | [] => 0
    | l => Py.round (mean l) 2
    end.

Close Scope Q_scope.

(** The compliance merge policy over the findings of one instance. *)
Definition is_non_compliant (item : SSMInventoryClient.ComplianceItem) : bool :=
  String.eqb (upper (default "UNKNOWN" (SSMInventoryClient.item_Status item)))
             "NON_COMPLIANT".

Definition is_compliant (item : SSMInventoryClient.ComplianceItem) : bool :=
  String.eqb (upper (default "UNKNOWN" (SSMInventoryClient.item_Status item)))
             "COMPLIANT".

Definition merge_policy (findings : list SSMInventoryClient.ComplianceItem)
    : ComplianceStatus.t :=
  if existsb is_non_compliant findings then ComplianceStatus.NON_COMPLIANT
  else if existsb is_compliant findings then ComplianceStatus.COMPLIANT
  else ComplianceStatus.UNKNOWN.

(** *** The publisher *)

(** The first request the backend rejects among the next [count] ones, the
    backend having received [base] requests so far: its position among
    them, and the error. *)
Fixpoint first_fault (faults : Faults) (base count : nat)
    : option (nat * ClientError) :=
  match count with
  | O => None
  | S count =>
    match faults base with
    | Some e => Some (O, e)
    | None => prod_map S id <$> first_fault faults (S base) count
    end
  end.

(** The request that carries a batch. *)
Definition request_of (namespace : string) (batch : list MetricValue) : PutRequest :=
  mkPut namespace (map to_cloudwatch_format batch).

(** The log record of a rejected batch. *)
Definition failure_record (batch_index : nat) (e : ClientError) : LogRecord :=
  mkLog "ERROR" "Failed to publish metric batch"
    [("batch_index", LInt (Z.of_nat batch_index));
     ("error_code", LStr (default "Unknown" (ce_code e)));
     ("error_message", LStr (default (ce_str e) (ce_message e)))].

(** The world after the batches [todo] were all accepted. *)
Definition after_accepted (namespace : string) (todo : list (nat * list MetricValue))
    (w : CloudWatchMetricClient.World) : CloudWatchMetricClient.World :=
  let b := CloudWatchMetricClient.backend w in
  let reqs := map (fun ib => request_of namespace ib.2) todo in
  CloudWatchMetricClient.mkWorld
    (mkBackend (received b ++ reqs) (accepted b ++ reqs))
    (CloudWatchMetricClient.log w
     ++ map (fun ib =>
               mkLog "DEBUG" "Published metric batch"
                 [("batch_index", LInt (Z.of_nat ib.1));
                  ("batch_size", LInt (Z.of_nat (length ib.2)))]) todo).

Definition total_points (todo : list (nat * list MetricValue)) : Z :=
  Z.of_nat (length (concat (map snd todo))).

(** What the loop does, in one step: up to the first rejected batch. *)
Definition loop_outcome (faults : Faults) (namespace : string)
    (todo : list (nat * list MetricValue)) (published_count : Z)
    (w : CloudWatchMetricClient.World)
    : result Z * CloudWatchMetricClient.World :=
  let base := length (received (CloudWatchMetricClient.backend w)) in
  match first_fault faults base (length todo) with
  | None => (Ok (published_count + total_points todo)%Z, after_accepted namespace todo w)
  | Some (k, e) =>
    let w1 := after_accepted namespace (take k todo) w in
    let b1 := CloudWatchMetricClient.backend w1 in
    match todo !! k with
    | Some (batch_index, batch) =>
      (Raise (CloudWatchMetricClient.publish_error e),
       CloudWatchMetricClient.mkWorld
         (mkBackend (received b1 ++ [request_of namespace batch]) (accepted b1))
         (CloudWatchMetricClient.log w1 ++ [failure_record batch_index e]))
    | None => (Raise (CloudWatchMetricClient.publish_error e), w1)
    end
  end.

(** The claim that the error raised for a rejected batch identifies the
    batch: the index can be read off the error. *)
Definition error_identifies_batch : Prop :=
  exists index_of : exn -> nat,
  forall config faults metrics namespace w k e err w',
    first_fault faults (length (received (CloudWatchMetricClient.backend w)))
      (length (CloudWatchMetricClient.batches_of metrics)) = Some (k, e) ->
    CloudWatchMetricClient.publish_metrics config faults metrics namespace w
      = (Raise err, w') ->
    index_of err = k.

(** *** The utilization client *)

(** The backend wrapper fails only by [CloudWatchClientError]. *)
Definition cw_only (gmd : CloudWatchMetricClient.GetMetricData) : Prop :=
  forall qs e, gmd qs = Raise e -> exists msg, e = CloudWatchClientError msg.

(** The datapoint a result entry carries, in the batch that starts at [i]:
    the instance it belongs to and its most recent value. *)
Definition datapoint (i : nat) (batch_instance_ids : list string)
    (r : CloudWatchMetricClient.MetricDataResult) : option (string * Q) :=
  match default "" (CloudWatchMetricClient.res_Id r) with
  | String "m" rest =>
    idx ← py_int rest;
    instance_id ← py_index batch_instance_ids (idx - Z.of_nat i);
    v ← head (default [] (CloudWatchMetricClient.res_Values r));
    Some (instance_id, v)
  | _ => None
  end.


(** What one batch contributes to the results: the datapoints of its
    response, or nothing when the request failed. *)
Definition batch_update (gmd : CloudWatchMetricClient.GetMetricData)
    (queries : list CloudWatchMetricClient.MetricDataQuery)
    (instance_ids : list string)
    (results : gmap string (option Q)) (i : nat) : gmap string (option Q) :=
  match gmd (slice queries i (i + CloudWatchMetricClient.batch_size)) with
  | Ok rs =>
    fold_left
      (CloudWatchMetricClient.apply_result i
         (slice instance_ids i (i + CloudWatchMetricClient.batch_size)))
      rs results
  | Raise _ => results
  end.


(** *** The compliance client *)

(** The findings served for an instance, over every query made for it. *)
Definition findings_for (backend : SSMInventoryClient.ListComplianceItems)
    (instance_ids : list string) (iid : string)
    : list SSMInventoryClient.ComplianceItem :=
  concat (map (fun entry : nat * string =>
                 if decide (entry.2 = iid)
                 then concat (SSMInventoryClient.pages (backend entry.1 entry.2))
                 else [])
              (enumerate instance_ids)).

(** The status of an instance after more findings, from the status [st] it
    had before them. *)
Definition merge (st : ComplianceStatus.t)
    (findings : list SSMInventoryClient.ComplianceItem) : ComplianceStatus.t :=
  if existsb is_non_compliant findings then ComplianceStatus.NON_COMPLIANT
  else if existsb is_compliant findings then
    match st with
    | ComplianceStatus.UNKNOWN => ComplianceStatus.COMPLIANT
    | _ => st
    end
  else st.

(** The claim that a failed query leaves the instance UNKNOWN. *)
Definition failure_yields_unknown : Prop :=
  forall backend instance_ids n iid m,
    NoDup instance_ids ->
    instance_ids !! n = Some iid ->
    is_Some (SSMInventoryClient.failure (backend n iid)) ->
    SSMInventoryClient.get_instance_compliance backend instance_ids = Ok m ->
    m !! iid = Some ComplianceStatus.UNKNOWN.

(** *** The snapshot *)

(** The invariant of the snapshot's counts. *)
Definition counts_invariant (fm : FleetMetrics) : Prop :=
  (0 <= total_instances fm)%Z
  /\ (0 <= running_instances fm)%Z
  /\ (0 <= stopped_instances fm)%Z
  /\ (0 <= pending_instances fm)%Z
  /\ (running_instances fm + stopped_instances fm + pending_instances fm
      <= total_instances fm)%Z.

(** The number of instances whose lifecycle state, in lower case, is [st]. *)
Definition in_state (st : string) (instances : list InstanceMetrics) : Z :=
  Z.of_nat (length (filter (fun i => lower (state i) = st) instances)).

End Spec.

(** ** Inputs used by the examples *)

Module Fixtures.

(** Forty points, and a backend that rejects one request with a throttling
    error: the first request, or the second. *)
Definition forty_points : list MetricValue :=
  replicate 40 (mkMetricValue "TestMetric" 1 "Count" [] 0).

Definition throttled : ClientError :=
  mkClientError (Some "Throttling") (Some "Rate exceeded") "ClientError".

Definition rejects (n : nat) : Faults :=
  fun i => if Nat.eqb i n then Some throttled else None.

Definition test_config : Config :=
  mkConfig "dev" "us-east-1" "hyperion-fleet" "Hyperion/FleetManager" 5.

Definition fresh_world : CloudWatchMetricClient.World := CloudWatchMetricClient.mkWorld (mkBackend [] []) [].

(** An instance whose first page holds a compliant finding and whose second
    page request is throttled. *)
Definition partial_then_failure : SSMInventoryClient.ListComplianceItems :=
  fun _ _ =>
    SSMInventoryClient.mkPaginated [[SSMInventoryClient.mkItem (Some "COMPLIANT")]]
      (Some (mkClientError (Some "ThrottlingException") (Some "Rate exceeded")
               "ClientError")).

(** 501 instances, [i-0] to [i-500]: two batches, of 500 and of 1. *)
Definition many_instances : list string :=
  map (fun n : nat => "i-" +:+ pretty n) (seq 0 501).

(** A backend wrapper that fails on the batches of one query and answers
    the others with a datapoint for the query [m0] only. *)
Definition fails_on_single : CloudWatchMetricClient.GetMetricData :=
  fun qs =>
    match qs with
    | [_] => Raise (CloudWatchClientError "Failed to get metric data: Throttling - Rate exceeded")
    | _ => Ok [CloudWatchMetricClient.mkMDResult (Some "m0") (Some [7%Q; 9%Q])]
    end.

End Fixtures.

(** ** Ordering of the health statuses *)

(** UNKNOWN below CRITICAL below WARNING below HEALTHY. *)
Definition status_rank (s : HealthStatus) : nat :=
  match s with
  | UNKNOWN => 0
  | CRITICAL => 1
  | WARNING => 2
  | HEALTHY => 3
  end.

(** ** cloudwatch_client.py: CloudWatchMetricClient.get_metric_data *)

Module CloudWatchQueries.
Import CloudWatchMetricClient.

(** One [GetMetricData] response; either key may be missing. *)
Record GetMetricDataResponse := mkGMDResponse {
  resp_MetricDataResults : option (list MetricDataResult);
  resp_NextToken : option string
}.

(** The backend: the answer to a request for [queries], with the
    [NextToken] argument when one is passed.  The time window is the same
    for every request of a call and left out. *)
Definition GetMetricDataAPI :=
  list MetricDataQuery -> option string -> ClientError + GetMetricDataResponse.

(** The error raised for a [ClientError]. *)
Definition get_metric_data_error (e : ClientError) : exn :=
  let error_code := default "Unknown" (ce_code e) in
  let error_message := default (ce_str e) (ce_message e) in
  CloudWatchClientError
    ("Failed to get metric data: " +:+ error_code +:+ " - " +:+ error_message).

(** [if next_token:] on an optional string. *)
Definition truthy (next_token : option string) : bool :=
  match next_token with
  | Some t => negb (String.eqb t "")
  | None => false
  end.

(** The [while True] loop.  [fuel] bounds the number of requests; [None]
    means that the loop is still running when the fuel is spent. *)
Fixpoint get_metric_data_loop (fuel : nat) (api : GetMetricDataAPI)
    (queries : list MetricDataQuery) (next_token : option string)
    (all_results : list MetricDataResult)
    : option (result (list MetricDataResult)) :=
  match fuel with
  | O => None
  | S fuel =>
    let kwargs_NextToken := if truthy next_token then next_token else None in
    match api queries kwargs_NextToken with
    | inl e => Some (Raise (get_metric_data_error e))
    | inr response =>
      let all_results :=
        all_results ++ default [] (resp_MetricDataResults response) in
      let next_token := resp_NextToken response in
      if negb (truthy next_token) then Some (Ok all_results)      (* break *)
      else get_metric_data_loop fuel api queries next_token all_results
    end
  end.

Definition get_metric_data (fuel : nat) (api : GetMetricDataAPI)
    (queries : list MetricDataQuery)
    : option (result (list MetricDataResult)) :=
  get_metric_data_loop fuel api queries None [].

(** The backend serves the pages [resps] one after the other, starting
    with the request that passes [tok]; every one of them carries a token,
    and [next] is the token of the last one ([tok] itself when there is no
    page). *)
Fixpoint linked (api : GetMetricDataAPI) (queries : list MetricDataQuery)
    (tok : option string) (resps : list GetMetricDataResponse)
    (next : option string) : Prop :=
  match resps with
  | [] => next = tok
  | r :: resps =>
    api queries tok = inr r
    /\ truthy (resp_NextToken r) = true
    /\ linked api queries (resp_NextToken r) resps next
  end.

(** The results of a list of pages, in order. *)
Definition results_of (resps : list GetMetricDataResponse) : list MetricDataResult :=
  concat (map (fun r => default [] (resp_MetricDataResults r)) resps).

(** A backend that answers every query with the series of its instance. *)
Definition echo (series : string -> list Q) : GetMetricData :=
  fun qs =>
    Ok (map (fun q => mkMDResult (Some (q_Id q)) (Some (series (q_InstanceId q)))) qs).

(** What an instance gets from a series: its first value. *)
Definition latest (series : string -> list Q) (results : gmap string (option Q))
    (iid : string) : gmap string (option Q) :=
  match series iid with
  | [] => results
  | v :: _ => <[iid := Some v]> results
  end.

End CloudWatchQueries.

(** ** botocore paginators *)

(** What iterating [paginator.paginate(..)] yields: the pages served, and
    then, if [pg_failure] is set, a [ClientError] raised by the request for
    the next page. *)
Record Paginator (P : Type) := mkPaginator {
  pg_pages : list P;
  pg_failure : option ClientError
}.
Arguments mkPaginator {P} pg_pages pg_failure.
Arguments pg_pages {P} p.
Arguments pg_failure {P} p.

(** [f"{prefix}: {error_code} - {error_message}"] for a [ClientError]. *)
Definition client_error_text (prefix : string) (e : ClientError) : string :=
  let error_code := default "Unknown" (ce_code e) in
  let error_message := default (ce_str e) (ce_message e) in
  prefix +:+ ": " +:+ error_code +:+ " - " +:+ error_message.

(** ** config.py: Config.get_instance_cost *)

Module ConfigCost.

Open Scope Q_scope.


(** [self.cost_per_hour.get(instance_type, self.cost_per_hour.get("default", 0.10))]. *)
Definition get_instance_cost (cost_per_hour : gmap string Q) (instance_type : string) : Q :=
  default (default 0.10 (cost_per_hour !! "default")) (cost_per_hour !! instance_type).

Close Scope Q_scope.

End ConfigCost.

(** ** ssm_client.py: the other queries *)

Module SSMQueries.

(** *** get_compliance_summary *)

Record SummaryItem := mkSummaryItem {
  sum_Status : option string
}.

(** The summary dict, with its three keys. *)
Record ComplianceSummary := mkSummary {
  compliant : Z;
  non_compliant : Z;
  unknown : Z
}.

Definition summary_step (summary : ComplianceSummary) (item : SummaryItem)
    : ComplianceSummary :=
  let status := upper (default "UNKNOWN" (sum_Status item)) in
  if String.eqb status "COMPLIANT" then
    mkSummary (compliant summary + 1) (non_compliant summary) (unknown summary)
  else if String.eqb status "NON_COMPLIANT" then
    mkSummary (compliant summary) (non_compliant summary + 1) (unknown summary)
  else
    mkSummary (compliant summary) (non_compliant summary) (unknown summary + 1).

(** [response] is the answer to the one [list_resource_compliance_summaries]
    request: a [ClientError], or the ["ResourceComplianceSummaryItems"] of
    the response if it has that key. *)
Definition get_compliance_summary (response : ClientError + option (list SummaryItem))
    : result ComplianceSummary :=
  match response with
  | inr items =>
    let summary := mkSummary 0 0 0 in
    Ok (fold_left summary_step (default [] items) summary)
  | inl e => Raise (SSMClientError (client_error_text "Failed to get compliance summary" e))
  end.

(** *** get_patch_compliance *)








(** *** get_managed_instances *)

Record InstanceInformation := mkInstanceInformation {
  info_InstanceId : option string;
  info_PingStatus : option string;
  info_PlatformType : option string;
  info_PlatformName : option string;
  info_PlatformVersion : option string;
  info_AgentVersion : option string;
  info_IsLatestVersion : option bool;
  info_ComputerName : option string;
  info_IPAddress : option string;
  info_ResourceType : option string
}.

Record ManagedInstance := mkManagedInstance {
  mi_instance_id : string;
  mi_ping_status : string;
  mi_platform_type : string;
  mi_platform_name : string;
  mi_platform_version : string;
  mi_agent_version : string;
  mi_is_latest_version : bool;
  mi_computer_name : string;
  mi_ip_address : string;
  mi_resource_type : string
}.

Definition managed_of (instance_info : InstanceInformation) : ManagedInstance :=
  mkManagedInstance
    (default "" (info_InstanceId instance_info))
    (default "Unknown" (info_PingStatus instance_info))
    (default "Unknown" (info_PlatformType instance_info))
    (default "Unknown" (info_PlatformName instance_info))
    (default "" (info_PlatformVersion instance_info))
    (default "" (info_AgentVersion instance_info))
    (default false (info_IsLatestVersion instance_info))
    (default "" (info_ComputerName instance_info))
    (default "" (info_IPAddress instance_info))
    (default "" (info_ResourceType instance_info)).

(** A page is its ["InstanceInformationList"], if it has that key. *)
Definition get_managed_instances
    (pager : Paginator (option (list InstanceInformation)))
    : result (list ManagedInstance) :=
  let instances :=
    fold_left (fun instances page => instances ++ map managed_of (default [] page))
      (pg_pages pager) [] in
  match pg_failure pager with
  | None => Ok instances
  | Some e => Raise (SSMClientError (client_error_text "Failed to get managed instances" e))
  end.

End SSMQueries.

(** ** ssm_client.py: EC2InstanceClient.get_fleet_instances *)

Module EC2Fleet.

Open Scope Q_scope.

(** One entry of a reservation's ["Instances"]; every key may be missing. *)
Record Instance := mkInstance {
  ec2_InstanceId : option string;
  ec2_InstanceType : option string;
  ec2_State : option (option string);                (* State, then Name *)
  ec2_Placement : option (option string)             (* Placement, then AvailabilityZone *)
}.

(** A reservation is its ["Instances"], a page is its ["Reservations"]. *)
Definition Reservation := option (list Instance).
Definition Page := option (list Reservation).

(** [instance.get(key, {}).get(name, "unknown")]. *)
Definition nested (field : option (option string)) : string :=
  default "unknown" (default None field).

Definition metrics_of (cost_per_hour : gmap string Q) (instance : Instance)
    : InstanceMetrics :=
  let instance_id := default "" (ec2_InstanceId instance) in
  let instance_type := default "unknown" (ec2_InstanceType instance) in
  let state := nested (ec2_State instance) in
  let az := nested (ec2_Placement instance) in
  let hourly_cost := ConfigCost.get_instance_cost cost_per_hour instance_type in
  mkInstanceMetrics instance_id instance_type az state None None None None
    (if String.eqb state "running" then hourly_cost else 0.0).

(** The instances of a page, reservation by reservation. *)
Definition page_instances (page : Page) : list Instance :=
  concat (map (fun reservation : Reservation => default [] reservation)
              (default [] page)).

(** [describe] is the paginated answer for the fleet tag. *)
Definition get_fleet_instances (cost_per_hour : gmap string Q)
    (describe : string -> Paginator Page) (fleet_name : string)
    : result (list InstanceMetrics) :=
  let pager := describe fleet_name in
  let instances :=
    fold_left (fun instances page =>
                 instances ++ map (metrics_of cost_per_hour) (page_instances page))
      (pg_pages pager) [] in
  match pg_failure pager with
  | None => Ok instances
  | Some e => Raise (SSMClientError (client_error_text "Failed to get fleet instances" e))
  end.

Close Scope Q_scope.

(** The sum of the counts of a state dictionary. *)
Definition total_count (counts : gmap string Z) : Z :=
  map_fold (fun _ n acc => (n + acc)%Z) 0%Z counts.

End EC2Fleet.

(** ** Backends used by the pagination examples *)

Module Pages.
Import CloudWatchMetricClient CloudWatchQueries.

Definition first_page : GetMetricDataResponse :=
  mkGMDResponse (Some [mkMDResult (Some "m0") (Some [7%Q])]) (Some "t1").

Definition last_page : GetMetricDataResponse :=
  mkGMDResponse (Some [mkMDResult (Some "m1") (Some [9%Q])]) None.

(** Two pages: the first carries the token ["t1"], the second none. *)
Definition two_pages : GetMetricDataAPI :=
  fun _ next_token =>
    match next_token with
    | None => inr first_page
    | Some _ => inr last_page
    end.

(** The first page is served, the request for the second is throttled. *)
Definition second_page_fails : GetMetricDataAPI :=
  fun _ next_token =>
    match next_token with
    | None => inr first_page
    | Some _ => inl Fixtures.throttled
    end.

End Pages.

(** ** handler.py: collect_instance_metrics, publish_aggregated_metrics and
    lambda_handler

    The handler's own log records, the tracer and the Powertools metrics do
    not change what the functions return and are left out. *)

Module Lambda.

Open Scope Q_scope.

(** What leaves a function of the handler: [MetricAggregationError], or any
    other exception of the clients, which the handler does not wrap. *)
Inductive error :=
| MetricAggregationError (msg : string)
| Unwrapped (e : exn).

Inductive outcome (A : Type) :=
| Done (a : A)
| Failed (e : error).
Arguments Done {A} a.
Arguments Failed {A} e.

#[global] Instance outcome_ret : MRet outcome := fun A a => Done a.








(** The body of the response. *)
Inductive Body :=
| Completed (fleet_name environment : string)
    (instances_processed running_instances metrics_published : Z)
    (fleet_health_score compliance_score : Q)
| AggregationFailed (error : string)          (* "Metric aggregation failed" *)
| UnexpectedError (e : exn).                  (* "Unexpected error occurred" *)

Record Response := mkResponse {
  statusCode : Z;
  body : Body
}.

(** [except MetricAggregationError] and [except Exception]. *)
Definition failure (e : error) : Response :=
  match e with
  | MetricAggregationError msg => mkResponse 500 (AggregationFailed msg)
  | Unwrapped e => mkResponse 500 (UnexpectedError e)
  end.


Close Scope Q_scope.

End Lambda.

(** ** Percentages

    The running instances' values of one utilization field are percentages. *)
Definition percentages (field : InstanceMetrics -> option Q)
    (instances : list InstanceMetrics) : bool :=
  forallb (fun i =>
             match field i with
             | Some v => Qle_bool 0 v && Qle_bool v 100
             | None => true
             end)
          (filter (fun i => state i = "running"%string) instances).

(** ** A small fleet used by the examples *)

Module Fleet.
Import EC2Fleet.





(** The two instances as observed, with their utilization values. *)
Definition observed : list InstanceMetrics :=
  [ mkInstanceMetrics "i-1" "t3.micro" "us-east-1a" "running"
      (Some 42%Q) (Some 55%Q) (Some 100%Q) (Some true) 0.0104%Q;
    mkInstanceMetrics "i-2" "m5.large" "unknown" "stopped"
      None None None None 0.0%Q ].


End Fleet.

(** * Properties *)

(** ** Arithmetic of the rational model *)

Section Numerics.
Local Open Scope Q_scope.

Lemma Qltb_lt (x y : Q) : Py.Qltb x y = true <-> x < y.
Proof.
  unfold Py.Qltb. rewrite negb_true_iff.
  destruct (Qle_bool y x) eqn:E.
  - apply Qle_bool_iff in E. split; [discriminate | lra].
  - split; [intros _ | reflexivity].
    apply Qnot_le_lt. intros H. apply Qle_bool_iff in H. congruence.
Qed.

Lemma Qltb_ge (x y : Q) : Py.Qltb x y = false <-> y <= x.
Proof.
  destruct (Py.Qltb x y) eqn:E.
  - apply Qltb_lt in E. split; [discriminate | lra].
  - split; [intros _ | reflexivity].
    apply Qnot_lt_le. intros H. apply Qltb_lt in H. congruence.
Qed.

Lemma Qle_bool_false (x y : Q) : Qle_bool x y = false <-> y < x.
Proof.
  destruct (Qle_bool x y) eqn:E.
  - apply Qle_bool_iff in E. split; [discriminate | lra].
  - split; [intros _ | reflexivity].
    apply Qnot_le_lt. intros H. apply Qle_bool_iff in H. congruence.
Qed.

Lemma div_ok (a b : Q) : ~ b == 0 -> Py.div a b = Ok (a / b).
Proof.
  intros H. unfold Py.div. destruct (Qeq_bool b 0) eqn:E; [|reflexivity].
  apply Qeq_bool_iff in E. contradiction.
Qed.

Lemma div_zero (a b : Q) : b == 0 -> Py.div a b = Raise ZeroDivisionError.
Proof.
  intros H. unfold Py.div. apply Qeq_bool_iff in H. now rewrite H.
Qed.

Lemma min_Qmin (a b : Q) : Py.min a b == Qmin a b.
Proof.
  unfold Py.min. destruct (Py.Qltb b a) eqn:E.
  - apply Qltb_lt in E. rewrite Q.min_r; [reflexivity | lra].
  - apply Qltb_ge in E. rewrite Q.min_l; [reflexivity | lra].
Qed.

Lemma clamp_spec (x : Q) : Py.min 100.0 (Py.max 0.0 x) == Spec.clamp x.
Proof.
  unfold Py.min, Py.max, Spec.clamp.
  destruct (Py.Qltb 0.0 x) eqn:E0.
  - apply Qltb_lt in E0.
    destruct (Qlt_le_dec x 0); [lra|].
    destruct (Py.Qltb x 100.0) eqn:E1.
    + apply Qltb_lt in E1. destruct (Qlt_le_dec 100 x); [lra | reflexivity].
    + apply Qltb_ge in E1. destruct (Qlt_le_dec 100 x); [reflexivity | lra].
  - apply Qltb_ge in E0.
    destruct (Py.Qltb 0.0 100.0) eqn:E1; [| vm_compute in E1; discriminate].
    destruct (Qlt_le_dec x 0); [reflexivity|].
    destruct (Qlt_le_dec 100 x); lra.
Qed.

Lemma round_half_even_proper (x y : Q) :
  x == y -> Py.round_half_even x = Py.round_half_even y.
Proof.
  intros H. unfold Py.round_half_even.
  rewrite (Qfloor_comp x y H).
  assert (Hc : (x - inject_Z (Qfloor y) ?= 1 # 2) = (y - inject_Z (Qfloor y) ?= 1 # 2))
    by (now rewrite H).
  now rewrite Hc.
Qed.

Lemma round_proper (x y : Q) (n : nat) : x == y -> Py.round x n = Py.round y n.
Proof.
  intros H. unfold Py.round.
  rewrite (round_half_even_proper (x * _) (y * inject_Z (10 ^ Z.of_nat n))); [reflexivity|].
  now rewrite H.
Qed.

(** [Py.round] is a rounding: the result lies on the grid of multiples of
    [10^-n] and is within half a grid step of the argument. *)
Lemma round_half_even_error (x : Q) :
  - (1 # 2) <= x - inject_Z (Py.round_half_even x) <= 1 # 2.
Proof.
  unfold Py.round_half_even.
  pose proof (Qfloor_le x) as Hlo. pose proof (Qlt_floor x) as Hhi.
  rewrite inject_Z_plus in Hhi. change (inject_Z 1) with 1 in Hhi.
  destruct (Qcompare_spec (x - inject_Z (Qfloor x)) (1 # 2)) as [E|E|E].
  - destruct (Z.even (Qfloor x));
      [|rewrite inject_Z_plus; change (inject_Z 1) with 1]; lra.
  - lra.
  - rewrite inject_Z_plus. change (inject_Z 1) with 1. lra.
Qed.

Lemma pow10_pos (n : nat) : 0 < inject_Z (10 ^ Z.of_nat n).
Proof.
  change 0 with (inject_Z 0). rewrite <- Zlt_Qlt. apply Z.pow_pos_nonneg; lia.
Qed.

Lemma round_error (x : Q) (n : nat) :
  Qabs (Py.round x n - x) <= (1 # 2) / inject_Z (10 ^ Z.of_nat n).
Proof.
  unfold Py.round. set (p := inject_Z (10 ^ Z.of_nat n)).
  pose proof (pow10_pos n) as Hp. fold p in Hp.
  pose proof (round_half_even_error (x * p)) as [H1 H2].
  set (k := inject_Z (Py.round_half_even (x * p))) in *.
  assert (E : k / p - x == (k - x * p) / p) by (field; lra).
  rewrite E. apply Qabs_Qle_condition. split.
  - apply Qle_shift_div_l; [exact Hp|].
    setoid_replace (- ((1 # 2) / p) * p) with (- (1 # 2)) using relation Qeq
      by (field; lra).
    lra.
  - apply Qle_shift_div_r; [exact Hp|].
    setoid_replace ((1 # 2) / p * p) with (1 # 2) using relation Qeq
      by (field; lra).
    lra.
Qed.

Lemma round_grid (x : Q) (n : nat) :
  Py.round x n * inject_Z (10 ^ Z.of_nat n)
  == inject_Z (Py.round_half_even (x * inject_Z (10 ^ Z.of_nat n))).
Proof.
  unfold Py.round. pose proof (pow10_pos n). field. lra.
Qed.

Example round_examples :
  Py.round (200 # 3) 2 == 66.67
  /\ Py.round 12.345 2 == 12.34
  /\ Py.round 12.355 2 == 12.36
  /\ Py.round (-0.005) 2 == 0
  /\ Py.round 50 2 == 50.
Proof. repeat split; reflexivity. Qed.

End Numerics.

(** ** Scoring functions *)

Section Scoring.
Local Open Scope Q_scope.

Lemma utilization_health_spec (u w c : Q) :
  0 < w -> w < c ->
  FleetHealthScore._calculate_utilization_health u w c
  = Ok (if Qle_bool u w then 100 - (u / w) * 30
        else if Qle_bool u c then 70 - ((u - w) / (c - w)) * 40
        else 30 - Py.min 1.0 ((u - c) / 10) * 30).
Proof.
  intros Hw Hc. unfold FleetHealthScore._calculate_utilization_health.
  destruct (Qle_bool u w).
  - rewrite div_ok by lra. reflexivity.
  - destruct (Qle_bool u c).
    + rewrite div_ok by lra. reflexivity.
    + rewrite div_ok by lra. reflexivity.
Qed.

Lemma utilization_health_refines (u w c : Q) :
  0 < w -> w < c ->
  exists h, FleetHealthScore._calculate_utilization_health u w c = Ok h
            /\ h == Spec.utilization_health u w c.
Proof.
  intros Hw Hc. eexists. split; [apply utilization_health_spec; assumption|].
  unfold Spec.utilization_health.
  destruct (Qle_bool u w) eqn:E1.
  - apply Qle_bool_iff in E1. destruct (Qlt_le_dec w u); [lra | reflexivity].
  - apply Qle_bool_false in E1. destruct (Qlt_le_dec w u); [|lra].
    destruct (Qle_bool u c) eqn:E2.
    + apply Qle_bool_iff in E2. destruct (Qlt_le_dec c u) as [H|H]; [lra | reflexivity].
    + apply Qle_bool_false in E2. destruct (Qlt_le_dec c u); [|lra].
      rewrite min_Qmin.
      assert (E : 1.0 == 1) by reflexivity. rewrite E. reflexivity.
Qed.

(** C2: for thresholds [0 < w < c] the utilization health helper returns the
    three-piece curve: [100 - (u/w)*30] for [u <= w],
    [70 - ((u-w)/(c-w))*40] for [w < u <= c] and
    [30 - min(1, (u-c)/10)*30] for [u > c]; it takes the value 70 at [u = w],
    30 at [u = c], and 0 for every [u >= c + 10]. *)
Theorem utilization_health_curve (u w c : Q) :
  0 < w -> w < c ->
  exists h, FleetHealthScore._calculate_utilization_health u w c = Ok h
    /\ (u <= w -> h == 100 - (u / w) * 30)
    /\ (w < u <= c -> h == 70 - ((u - w) / (c - w)) * 40)
    /\ (c < u -> h == 30 - Qmin 1 ((u - c) / 10) * 30)
    /\ (u == w -> h == 70)
    /\ (u == c -> h == 30)
    /\ (c + 10 <= u -> h == 0).
Proof.
  intros Hw Hc.
  destruct (utilization_health_refines u w c Hw Hc) as (h & Hh & Heq).
  exists h. split; [exact Hh|].
  unfold Spec.utilization_health in Heq.
  repeat split.
  - intros H. destruct (Qlt_le_dec w u); [lra | exact Heq].
  - intros [H1 H2]. destruct (Qlt_le_dec w u); [|lra].
    destruct (Qlt_le_dec c u) as [H|H]; [lra | exact Heq].
  - intros H. destruct (Qlt_le_dec w u); [|lra].
    destruct (Qlt_le_dec c u); [exact Heq | lra].
  - intros H. destruct (Qlt_le_dec w u); [lra|].
    rewrite Heq, H. setoid_replace (w / w) with 1 using relation Qeq by (field; lra). lra.
  - intros H. destruct (Qlt_le_dec w u); [|lra].
    destruct (Qlt_le_dec c u) as [H'|H']; [lra|].
    rewrite Heq, H. setoid_replace ((c - w) / (c - w)) with 1 using relation Qeq by (field; lra). lra.
  - intros H. destruct (Qlt_le_dec w u); [|lra].
    destruct (Qlt_le_dec c u) as [H'|H']; [|lra].
    rewrite Heq. rewrite Q.min_l; [lra|].
    apply Qle_shift_div_l; lra.
Qed.

Lemma utilization_health_curve_witness :
  0 < 70 /\ 70 < 90
  /\ exists h, FleetHealthScore._calculate_utilization_health 75 70 90 = Ok h /\ h == 60.
Proof.
  assert (H1 : 0 < 70) by reflexivity.
  assert (H2 : 70 < 90) by reflexivity.
  split; [exact H1|]. split; [exact H2|].
  destruct (utilization_health_curve 75 70 90 H1 H2) as (h & Hh & _ & Hmid & _).
  exists h. split; [exact Hh|].
  rewrite Hmid; [reflexivity|]. split; lra.
Defined.





(** The scenarios of the test suite and of the specification. *)
Example fleet_health_scenarios :
  returns (FleetHealthScore.calculate FleetMetrics_default) 0
  /\ returns (FleetHealthScore.calculate
               (mkFleetMetrics 5 5 0 0 70 75 80 5 0 0 [])) 77.5
  /\ returns (FleetHealthScore.calculate
               (mkFleetMetrics 5 5 0 0 95 95 98 0 5 0 [])) 12.45
  /\ returns (FleetHealthScore.calculate
               (mkFleetMetrics 1 1 0 0 200 200 200 0 100 0 [])) 0
  /\ returns (FleetHealthScore.calculate
               (mkFleetMetrics 5 5 0 0 50 50 50 0 0 0 [])) 84.82.
Proof. repeat split; reflexivity. Qed.

Example compliance_score_scenarios :
  returns (ComplianceScore.calculate (mkFleetMetrics 3 3 0 0 0 0 0 2 1 0 [])) 66.67
  /\ returns (ComplianceScore.calculate FleetMetrics_default) 100.
Proof. split; reflexivity. Qed.

(** *** Cost efficiency *)

Lemma loop_body_classify (c : CostEfficiencyScore.counters) (i : InstanceMetrics) :
  CostEfficiencyScore.loop_body c i =
  match Spec.classify i with
  | None => c
  | Some Spec.Idle =>
    CostEfficiencyScore.mkCounters
      (CostEfficiencyScore.idle_count c + 1)
      (CostEfficiencyScore.underutilized_count c)
      (CostEfficiencyScore.well_utilized_count c)
  | Some Spec.Underutilized =>
    CostEfficiencyScore.mkCounters
      (CostEfficiencyScore.idle_count c)
      (CostEfficiencyScore.underutilized_count c + 1)
      (CostEfficiencyScore.well_utilized_count c)
  | Some Spec.WellUtilized =>
    CostEfficiencyScore.mkCounters
      (CostEfficiencyScore.idle_count c)
      (CostEfficiencyScore.underutilized_count c)
      (CostEfficiencyScore.well_utilized_count c + 1)
  end.
Proof.
  unfold CostEfficiencyScore.loop_body, Spec.classify.
  destruct (String.eqb_spec (state i) "running") as [E|E]; simpl.
  - rewrite decide_True by exact E.
    destruct (cpu_utilization i) as [cpu|]; [|reflexivity].
    unfold Thresholds.IDLE_CPU_THRESHOLD, Thresholds.UNDERUTILIZED_CPU_THRESHOLD.
    destruct (Py.Qltb cpu 5.0) eqn:E5.
    + apply Qltb_lt in E5. destruct (Qlt_le_dec cpu 5); [reflexivity | lra].
    + apply Qltb_ge in E5. destruct (Qlt_le_dec cpu 5); [lra|].
      destruct (Py.Qltb cpu 20.0) eqn:E20.
      * apply Qltb_lt in E20. destruct (Qlt_le_dec cpu 20); [reflexivity | lra].
      * apply Qltb_ge in E20. destruct (Qlt_le_dec cpu 20); [lra | reflexivity].
  - rewrite decide_False by exact E. reflexivity.
Qed.

Lemma count_class_cons (k : Spec.CpuClass) (i : InstanceMetrics) (l : list InstanceMetrics) :
  Spec.count_class k (i :: l)
  = ((if decide (Spec.classify i = Some k) then 1 else 0) + Spec.count_class k l)%Z.
Proof.
  unfold Spec.count_class. rewrite filter_cons.
  destruct (decide (Spec.classify i = Some k)); simpl length; lia.
Qed.

Lemma loop_counts (l : list InstanceMetrics) (c : CostEfficiencyScore.counters) :
  let c' := fold_left CostEfficiencyScore.loop_body l c in
  CostEfficiencyScore.idle_count c'
    = (CostEfficiencyScore.idle_count c + Spec.count_class Spec.Idle l)%Z
  /\ CostEfficiencyScore.underutilized_count c'
    = (CostEfficiencyScore.underutilized_count c
       + Spec.count_class Spec.Underutilized l)%Z
  /\ CostEfficiencyScore.well_utilized_count c'
    = (CostEfficiencyScore.well_utilized_count c
       + Spec.count_class Spec.WellUtilized l)%Z.
Proof.
  revert c. induction l as [|i l IH]; intros c; simpl.
  - unfold Spec.count_class. simpl. lia.
  - destruct (IH (CostEfficiencyScore.loop_body c i)) as (H1 & H2 & H3).
    rewrite H1, H2, H3, !count_class_cons, loop_body_classify.
    destruct (Spec.classify i) as [[]|]; simpl;
      repeat (case_decide; try discriminate); lia.
Qed.

Lemma cost_efficiency_refines (fm : FleetMetrics) :
  exists v, CostEfficiencyScore.calculate fm = Ok v
            /\ v == Spec.cost_efficiency_score fm.
Proof.
  unfold CostEfficiencyScore.calculate, Spec.cost_efficiency_score.
  destruct (running_instances fm =? 0)%Z; [eexists; split; reflexivity|].
  destruct (loop_counts (instance_metrics fm) (CostEfficiencyScore.mkCounters 0 0 0))
    as (H1 & H2 & H3).
  rewrite Z.add_0_l in H1, H2, H3. rewrite H1, H2, H3.
  set (idle := Spec.count_class Spec.Idle (instance_metrics fm)).
  set (under := Spec.count_class Spec.Underutilized (instance_metrics fm)).
  set (well := Spec.count_class Spec.WellUtilized (instance_metrics fm)).
  destruct (Z.eqb_spec (idle + under + well) 0) as [E|E];
    [eexists; split; reflexivity|].
  rewrite div_ok.
  - eexists. split; [reflexivity|].
    erewrite round_proper; [reflexivity|]. apply clamp_spec.
  - intros Hz. unfold Qeq in Hz. simpl in Hz. lia.
Qed.


(** The boundary values of the classification. *)
Example classify_boundaries :
  let inst cpu := mkInstanceMetrics "i" "t" "z" "running" (Some cpu) None None None 0 in
  Spec.classify (inst 4.9) = Some Spec.Idle
  /\ Spec.classify (inst 5.0) = Some Spec.Underutilized
  /\ Spec.classify (inst 5.1) = Some Spec.Underutilized
  /\ Spec.classify (inst 19.9) = Some Spec.Underutilized
  /\ Spec.classify (inst 20.0) = Some Spec.WellUtilized
  /\ Spec.classify (inst 20.1) = Some Spec.WellUtilized.
Proof. repeat split; reflexivity. Qed.

(** *** Capacity utilization *)

Lemma add_if_positive_spec (avg : Q) (acc : Q * Z) :
  CapacityUtilization.add_if_positive avg acc
  = if Qlt_le_dec 0 avg then (fst acc + avg, (snd acc + 1)%Z) else acc.
Proof.
  unfold CapacityUtilization.add_if_positive.
  destruct (Py.Qltb 0 avg) eqn:E.
  - apply Qltb_lt in E. destruct (Qlt_le_dec 0 avg); [reflexivity | lra].
  - apply Qltb_ge in E. destruct (Qlt_le_dec 0 avg); [lra | reflexivity].
Qed.

Lemma capacity_utilization_refines (fm : FleetMetrics) :
  exists v, CapacityUtilization.calculate fm = Ok v
    /\ v == Spec.capacity_utilization fm
    /\ (running_instances fm = 0%Z -> v == 0)
    /\ (avg_cpu_utilization fm == 0 /\ avg_memory_utilization fm == 0
        /\ avg_disk_utilization fm == 0 -> v == 0).
Proof.
  unfold CapacityUtilization.calculate, Spec.capacity_utilization,
    Spec.present_averages.
  destruct (Z.eqb_spec (running_instances fm) 0) as [E|E].
  { eexists. repeat split; reflexivity. }
  rewrite !add_if_positive_spec. simpl List.filter.
  destruct (Qlt_le_dec 0 (avg_cpu_utilization fm)) as [Hc|Hc];
  destruct (Qlt_le_dec 0 (avg_memory_utilization fm)) as [Hm|Hm];
  destruct (Qlt_le_dec 0 (avg_disk_utilization fm)) as [Hd|Hd];
  cbn [fst snd Z.add Z.eqb Pos.add Pos.succ Pos.eqb];
  try rewrite div_ok by (vm_compute; discriminate);
  (eexists; split; [reflexivity|]; split;
   [ first [ reflexivity
           | match goal with
             | |- Py.round ?a 2 == Py.round ?b 2 =>
               rewrite (round_proper a b 2); [reflexivity|]
             end;
             unfold Spec.mean;
             repeat match goal with
             | |- context [inject_Z ?z] =>
               let v := eval vm_compute in (inject_Z z) in
               change (inject_Z z) with v
             end;
             simpl; field ]
   | split; [intros; contradiction | intros (H1 & H2 & H3); first [reflexivity | lra] ] ]).
Qed.


Example capacity_utilization_balanced :
  returns (CapacityUtilization.calculate (mkFleetMetrics 3 3 0 0 50 50 50 0 0 0 [])) 50
  /\ returns (CapacityUtilization.calculate (mkFleetMetrics 3 0 3 0 50 50 50 0 0 0 [])) 0.
Proof. split; reflexivity. Qed.

(** *** Status classifiers *)

(** C10: the capacity utilization classifier returns HEALTHY, WARNING or
    CRITICAL for every score and never UNKNOWN; a score of 0, which is what
    a fleet without running instances gets, is CRITICAL; the classifiers of
    the other three scorers return UNKNOWN for every score [<= 0]. *)
Theorem capacity_status_never_unknown (score : Q) :
  CapacityUtilization.get_status score <> UNKNOWN
  /\ CapacityUtilization.get_status 0 = CRITICAL
  /\ (forall fm, running_instances fm = 0%Z ->
        exists v, CapacityUtilization.calculate fm = Ok v
                  /\ CapacityUtilization.get_status v = CRITICAL)
  /\ (score <= 0 ->
        FleetHealthScore.get_status score = UNKNOWN
        /\ ComplianceScore.get_status score = UNKNOWN
        /\ CostEfficiencyScore.get_status score = UNKNOWN).
Proof.
  split; [|split; [reflexivity|split]].
  - unfold CapacityUtilization.get_status.
    destruct (Qle_bool 20 score) eqn:E1, (Qle_bool score 70) eqn:E2;
      simpl; try discriminate.
    + apply Qle_bool_iff in E1. apply Qle_bool_false in E2.
      destruct (Qle_bool 10 score) eqn:E3, (Py.Qltb score 20) eqn:E4,
        (Py.Qltb 70 score) eqn:E5, (Qle_bool score 85) eqn:E6;
        simpl; try discriminate;
        destruct (Py.Qltb 85 score) eqn:E7, (Py.Qltb score 10) eqn:E8;
        simpl; try discriminate;
        exfalso;
        repeat match goal with
        | H : Qle_bool _ _ = true |- _ => apply Qle_bool_iff in H
        | H : Qle_bool _ _ = false |- _ => apply Qle_bool_false in H
        | H : Py.Qltb _ _ = true |- _ => apply Qltb_lt in H
        | H : Py.Qltb _ _ = false |- _ => apply Qltb_ge in H
        end; lra.
    + apply Qle_bool_false in E1.
      destruct (Qle_bool 10 score) eqn:E3, (Py.Qltb score 20) eqn:E4,
        (Py.Qltb 70 score) eqn:E5, (Qle_bool score 85) eqn:E6;
        simpl; try discriminate;
        destruct (Py.Qltb 85 score) eqn:E7, (Py.Qltb score 10) eqn:E8;
        simpl; try discriminate;
        exfalso;
        repeat match goal with
        | H : Qle_bool _ _ = true |- _ => apply Qle_bool_iff in H
        | H : Qle_bool _ _ = false |- _ => apply Qle_bool_false in H
        | H : Py.Qltb _ _ = true |- _ => apply Qltb_lt in H
        | H : Py.Qltb _ _ = false |- _ => apply Qltb_ge in H
        end; lra.
    + apply Qle_bool_false in E1.
      destruct (Qle_bool 10 score) eqn:E3, (Py.Qltb score 20) eqn:E4,
        (Py.Qltb 70 score) eqn:E5, (Qle_bool score 85) eqn:E6;
        simpl; try discriminate;
        destruct (Py.Qltb 85 score) eqn:E7, (Py.Qltb score 10) eqn:E8;
        simpl; try discriminate;
        exfalso;
        repeat match goal with
        | H : Qle_bool _ _ = true |- _ => apply Qle_bool_iff in H
        | H : Qle_bool _ _ = false |- _ => apply Qle_bool_false in H
        | H : Py.Qltb _ _ = true |- _ => apply Qltb_lt in H
        | H : Py.Qltb _ _ = false |- _ => apply Qltb_ge in H
        end; lra.
  - intros fm Hr. unfold CapacityUtilization.calculate.
    apply Z.eqb_eq in Hr. rewrite Hr. eexists. split; reflexivity.
  - intros Hle.
    assert (H80 : Qle_bool 80 score = false) by (apply Qle_bool_false; lra).
    assert (H60 : Qle_bool 60 score = false) by (apply Qle_bool_false; lra).
    assert (H90 : Qle_bool 90.0 score = false) by (apply Qle_bool_false; lra).
    assert (H80' : Qle_bool 80.0 score = false) by (apply Qle_bool_false; lra).
    assert (H70 : Qle_bool 70 score = false) by (apply Qle_bool_false; lra).
    assert (H40 : Qle_bool 40 score = false) by (apply Qle_bool_false; lra).
    assert (H0 : Py.Qltb 0 score = false) by (apply Qltb_ge; lra).
    unfold FleetHealthScore.get_status, ComplianceScore.get_status,
      CostEfficiencyScore.get_status, Thresholds.COMPLIANCE_WARNING,
      Thresholds.COMPLIANCE_CRITICAL.
    rewrite H80, H60, H90, H80', H70, H40, H0. repeat split; reflexivity.
Qed.

(** *** The scorers are total *)




End Scoring.

(** ** The aggregator *)

Section Aggregator.


(** The all-zero snapshot. *)
Example aggregate_all_zero :
  exists ms,
    fst (MetricAggregator.aggregate (MetricAggregator.__init__ "dev" "hyperion-fleet")
           FleetMetrics_default (mkClock (fun _ => 1700000000%Z) 0)) = Ok ms
    /\ length ms = 13
    /\ Forall (fun m => Qeq (value m) 0
                        \/ name m = MetricNames.COMPLIANCE_SCORE) ms.
Proof.
  eexists. split; [vm_compute; reflexivity|]. split; [reflexivity|].
  repeat (constructor; [first [left; reflexivity | right; reflexivity]|]).
  constructor.
Qed.

End Aggregator.

(** ** Batching: slices over a stepped range *)

Section Batching.
Context {A : Type}.
Implicit Types (l : list A) (n k i : nat).

Lemma slice_step l i n : slice l i (i + n) = take n (drop i l).
Proof. unfold slice. f_equal. lia. Qed.

Lemma range_step_length stop step :
  length (range_step stop step) = (stop + step - 1) / step.
Proof. unfold range_step. now rewrite length_map, length_seq. Qed.

Lemma range_step_lookup stop step k i :
  range_step stop step !! k = Some i
  <-> i = k * step /\ k < (stop + step - 1) / step.
Proof.
  unfold range_step. rewrite list_lookup_fmap. split.
  - intros H. destruct (seq 0 _ !! k) as [j|] eqn:E; [|discriminate].
    apply lookup_seq in E as [-> Hk]. simpl in H. injection H as <-. now split.
  - intros [-> Hk]. now rewrite lookup_seq_lt.
Qed.

Lemma chunks_of_seq l n :
  chunks_of l n
  = map (fun k => take n (drop (k * n) l)) (seq 0 ((length l + n - 1) / n)).
Proof.
  unfold chunks_of, range_step. rewrite map_map.
  apply map_ext. intros k. apply slice_step.
Qed.

Lemma concat_take_drop l n s c :
  concat (map (fun k => take n (drop (k * n) l)) (seq s c))
  = take (c * n) (drop (s * n) l).
Proof.
  revert s. induction c as [|c IH]; intros s; simpl.
  - now rewrite take_0.
  - rewrite IH. replace (S s * n) with (s * n + n) by lia.
    rewrite <- drop_drop. apply take_take_drop.
Qed.

Lemma ceil_div_covers len n : 0 < n -> len <= (len + n - 1) / n * n.
Proof.
  intros Hn.
  pose proof (Nat.div_mod_eq (len + n - 1) n) as Hdm.
  pose proof (Nat.mod_upper_bound (len + n - 1) n) as Hmod.
  nia.
Qed.

Lemma ceil_div_tight len n k : 0 < n -> k < (len + n - 1) / n -> k * n < len.
Proof.
  intros Hn Hk.
  pose proof (Nat.div_mod_eq (len + n - 1) n) as Hdm.
  nia.
Qed.

Lemma ceil_div_full len n k : 0 < n -> S k < (len + n - 1) / n -> k * n + n <= len.
Proof.
  intros Hn Hk.
  pose proof (ceil_div_tight len n (S k) Hn Hk) as H. lia.
Qed.

Lemma chunks_of_concat l n : 0 < n -> concat (chunks_of l n) = l.
Proof.
  intros Hn. rewrite chunks_of_seq, concat_take_drop. simpl.
  apply take_ge. now apply ceil_div_covers.
Qed.

Lemma chunks_of_length l n : length (chunks_of l n) = (length l + n - 1) / n.
Proof. unfold chunks_of. now rewrite length_map, range_step_length. Qed.

Lemma chunks_of_lookup l n k b :
  chunks_of l n !! k = Some b
  <-> b = take n (drop (k * n) l) /\ k < (length l + n - 1) / n.
Proof.
  rewrite chunks_of_seq, list_lookup_fmap. split.
  - intros H. destruct (seq 0 _ !! k) as [j|] eqn:E; [|discriminate].
    apply lookup_seq in E as [-> Hk]. simpl in H. injection H as <-. now split.
  - intros [-> Hk]. now rewrite lookup_seq_lt.
Qed.

(** Every chunk is non-empty and has at most [n] elements; every chunk but
    the last has exactly [n]. *)
Lemma chunks_of_sizes l n k b :
  0 < n -> chunks_of l n !! k = Some b ->
  0 < length b <= n /\ (S k < length (chunks_of l n) -> length b = n).
Proof.
  intros Hn Hb. apply chunks_of_lookup in Hb as [-> Hk].
  rewrite length_take, length_drop, chunks_of_length.
  pose proof (ceil_div_tight (length l) n k Hn Hk).
  split; [lia|]. intros HS.
  pose proof (ceil_div_full (length l) n k Hn HS). lia.
Qed.

End Batching.

(** ** The publisher *)

Section Publisher.
Import CloudWatchMetricClient.

Lemma after_accepted_nil namespace w : Spec.after_accepted namespace [] w = w.
Proof.
  destruct w as [[r a] lg]. unfold Spec.after_accepted. simpl.
  now rewrite !app_nil_r.
Qed.

Lemma publish_loop_outcome faults namespace todo published_count w :
  publish_loop faults namespace todo published_count w
  = Spec.loop_outcome faults namespace todo published_count w.
Proof.
  revert published_count w.
  induction todo as [|[batch_index batch] todo IH]; intros published_count w.
  - unfold Spec.loop_outcome. simpl. rewrite after_accepted_nil.
    unfold Spec.total_points. simpl. now rewrite Z.add_0_r.
  - simpl publish_loop. unfold put_metric_data, Spec.loop_outcome. simpl Spec.first_fault.
    destruct (faults (length (received (backend w)))) as [e|] eqn:Hf.
    + simpl. rewrite !app_nil_r. reflexivity.
    + rewrite IH. unfold Spec.loop_outcome, logger. simpl backend. simpl received.
      rewrite length_app. simpl length.
      replace (length (received (backend w)) + 1) with (S (length (received (backend w))))
        by lia.
      destruct (Spec.first_fault faults (S (length (received (backend w)))) (length todo))
        as [[k e]|] eqn:Hff; simpl.
      * destruct (todo !! k) as [[bi b]|]; unfold Spec.after_accepted; simpl;
          rewrite <- !app_assoc; reflexivity.
      * unfold Spec.after_accepted, Spec.total_points. simpl.
        rewrite <- !app_assoc, length_app. simpl.
        f_equal. f_equal. lia.
Qed.

Lemma enumerate_length {A} (l : list A) : length (enumerate l) = length l.
Proof. unfold enumerate. rewrite length_zip_with, length_seq. lia. Qed.

Lemma enumerate_snd {A} (l : list A) : map snd (enumerate l) = l.
Proof. unfold enumerate. apply snd_zip. rewrite length_seq. lia. Qed.

Lemma enumerate_lookup {A} (l : list A) (k : nat) (x : A) :
  l !! k = Some x -> enumerate l !! k = Some (k, x).
Proof.
  intros H. unfold enumerate. rewrite lookup_zip_with, H.
  rewrite lookup_seq_lt by (eapply lookup_lt_Some; eassumption). reflexivity.
Qed.

Lemma first_fault_lt faults base count k e :
  Spec.first_fault faults base count = Some (k, e) -> k < count.
Proof.
  revert base k. induction count as [|count IH]; intros base k H; simpl in H.
  - discriminate.
  - destruct (faults base); [injection H as <- _; lia|].
    destruct (Spec.first_fault faults (S base) count) as [[k' e']|] eqn:E;
      [|discriminate].
    simpl in H. injection H as <- <-. apply IH in E. lia.
Qed.

(** [first_fault] finds the first rejected request: the earlier ones are
    accepted and this one is rejected with the error. *)
Lemma first_fault_spec faults base count k e :
  Spec.first_fault faults base count = Some (k, e)
  -> faults (base + k) = Some e /\ forall j, j < k -> faults (base + j) = None.
Proof.
  revert base k. induction count as [|count IH]; intros base k H; simpl in H.
  - discriminate.
  - destruct (faults base) as [e0|] eqn:Hb.
    + injection H as <- <-. rewrite Nat.add_0_r. split; [exact Hb|]. intros j Hj. lia.
    + destruct (Spec.first_fault faults (S base) count) as [[k' e']|] eqn:E;
        [|discriminate].
      simpl in H. injection H as <- <-. apply IH in E as [E1 E2].
      split.
      * now replace (base + S k') with (S base + k') by lia.
      * intros [|j] Hj; [now rewrite Nat.add_0_r|].
        replace (base + S j) with (S base + j) by lia. apply E2. lia.
Qed.

Lemma first_fault_none faults base count :
  Spec.first_fault faults base count = None
  -> forall j, j < count -> faults (base + j) = None.
Proof.
  revert base. induction count as [|count IH]; intros base H j Hj; [lia|].
  simpl in H. destruct (faults base) eqn:Hb; [discriminate|].
  destruct (Spec.first_fault faults (S base) count) eqn:E; [discriminate|].
  destruct j as [|j]; [now rewrite Nat.add_0_r|].
  replace (base + S j) with (S base + j) by lia. apply IH; [exact E | lia].
Qed.

Lemma batches_of_nil : batches_of [] = [].
Proof. reflexivity. Qed.

Lemma publish_metrics_general config faults metrics namespace w :
  let batches := batches_of metrics in
  let ns := py_or namespace (cfg_metric_namespace config) in
  let reqs := map (Spec.request_of ns) batches in
  let r := publish_metrics config faults metrics namespace w in
  match Spec.first_fault faults (length (received (backend w))) (length batches) with
  | None =>
    r.1 = Ok (Z.of_nat (length metrics))
    /\ received (backend r.2) = received (backend w) ++ reqs
    /\ accepted (backend r.2) = accepted (backend w) ++ reqs
  | Some (k, e) =>
    r.1 = Raise (publish_error e)
    /\ received (backend r.2) = received (backend w) ++ take (S k) reqs
    /\ accepted (backend r.2) = accepted (backend w) ++ take k reqs
    /\ last (log r.2) = Some (Spec.failure_record k e)
  end.
Proof.
  intros batches ns reqs r.
  assert (Hconcat : concat batches = metrics)
    by (apply chunks_of_concat; unfold MAX_METRICS_PER_BATCH; lia).
  destruct metrics as [|m metrics].
  { simpl. rewrite !app_nil_r. repeat split; reflexivity. }
  subst r. unfold publish_metrics. fold batches. fold ns.
  rewrite publish_loop_outcome. unfold Spec.loop_outcome.
  rewrite enumerate_length. simpl backend. simpl received.
  destruct (Spec.first_fault faults (length (received (backend w))) (length batches))
    as [[k e]|] eqn:Hff.
  - apply first_fault_lt in Hff as Hk.
    destruct (lookup_lt_is_Some_2 batches k Hk) as [b Hb].
    rewrite (enumerate_lookup _ _ _ Hb). simpl.
    assert (Hreq : map (fun ib : nat * list MetricValue => Spec.request_of ns ib.2)
                     (take k (enumerate batches)) = take k reqs).
    { unfold reqs. rewrite <- fmap_take.
      rewrite <- (enumerate_snd batches) at 2.
      rewrite <- fmap_take. rewrite <- list_fmap_compose. reflexivity. }
    rewrite Hreq. split; [reflexivity|]. split; [|split].
    + rewrite <- app_assoc. f_equal.
      symmetry. apply take_S_r. unfold reqs. rewrite list_lookup_fmap, Hb. reflexivity.
    + reflexivity.
    + apply last_snoc.
  - simpl. split; [|split].
    + unfold Spec.total_points. rewrite enumerate_snd, Hconcat. reflexivity.
    + unfold reqs. rewrite <- (enumerate_snd batches) at 2.
      rewrite <- list_fmap_compose. reflexivity.
    + unfold reqs. rewrite <- (enumerate_snd batches) at 2.
      rewrite <- list_fmap_compose. reflexivity.
Qed.

(** C4, as the code has it: [publish_metrics] splits the points into
    consecutive batches of exactly 20 (the last one possibly smaller, none
    empty) and sends one request per batch, in order.  When the backend
    accepts them all the call returns the number of input points; an empty
    input returns 0 without any request.  The first rejected batch ends the
    call: the error raised carries the backend's error code and message
    (not the batch index, which only the ERROR log record holds), no later
    batch is sent, and the batches accepted before stay published. *)
Theorem publish_metrics_batches config faults metrics namespace w :
  let batches := batches_of metrics in
  let ns := py_or namespace (cfg_metric_namespace config) in
  let reqs := map (Spec.request_of ns) batches in
  let r := publish_metrics config faults metrics namespace w in
  concat batches = metrics
  /\ (forall k b, batches !! k = Some b ->
        0 < length b <= 20 /\ (S k < length batches -> length b = 20))
  /\ match Spec.first_fault faults (length (received (backend w))) (length batches) with
     | None =>
       r.1 = Ok (Z.of_nat (length metrics))
       /\ received (backend r.2) = received (backend w) ++ reqs
       /\ accepted (backend r.2) = accepted (backend w) ++ reqs
     | Some (k, e) =>
       r.1 = Raise (CloudWatchClientError
                      ("Failed to publish metrics: "
                       +:+ default "Unknown" (ce_code e) +:+ " - "
                       +:+ default (ce_str e) (ce_message e)))
       /\ received (backend r.2) = received (backend w) ++ take (S k) reqs
       /\ accepted (backend r.2) = accepted (backend w) ++ take k reqs
       /\ last (log r.2) = Some (Spec.failure_record k e)
     end
  /\ (metrics = [] -> r.1 = Ok 0%Z /\ backend r.2 = backend w).
Proof.
  intros batches ns reqs r. split; [|split; [|split]].
  - apply chunks_of_concat. unfold MAX_METRICS_PER_BATCH. lia.
  - intros k b Hb.
    apply (chunks_of_sizes metrics MAX_METRICS_PER_BATCH k b); [|exact Hb].
    unfold MAX_METRICS_PER_BATCH. lia.
  - apply publish_metrics_general.
  - intros Hnil. subst r. rewrite Hnil. split; reflexivity.
Qed.

(** C4 as stated fails: the error raised when batch 0 is rejected is the same
    as the one raised when batch 1 is rejected, so the error does not
    identify the failing batch. *)
Lemma publish_error_hides_batch_index : ~ Spec.error_identifies_batch.
Proof.
  intros [index_of H].
  pose proof (H Fixtures.test_config (Fixtures.rejects 0) Fixtures.forty_points None Fixtures.fresh_world 0 Fixtures.throttled
                (publish_error Fixtures.throttled)
                (publish_metrics Fixtures.test_config (Fixtures.rejects 0) Fixtures.forty_points None Fixtures.fresh_world).2
                eq_refl eq_refl) as H0.
  pose proof (H Fixtures.test_config (Fixtures.rejects 1) Fixtures.forty_points None Fixtures.fresh_world 1 Fixtures.throttled
                (publish_error Fixtures.throttled)
                (publish_metrics Fixtures.test_config (Fixtures.rejects 1) Fixtures.forty_points None Fixtures.fresh_world).2
                eq_refl eq_refl) as H1.
  congruence.
Qed.

(** Forty-five points and a backend that rejects the second request: the
    first batch stays published, the third is never sent. *)
Example publish_second_batch_rejected :
  let r := publish_metrics Fixtures.test_config (Fixtures.rejects 1)
             (replicate 45 (mkMetricValue "TestMetric" 1 "Count" [] 0)) None
             Fixtures.fresh_world in
  r.1 = Raise (CloudWatchClientError
                 "Failed to publish metrics: Throttling - Rate exceeded")
  /\ map (fun q => length (put_MetricData q)) (received (backend r.2)) = [20; 20]
  /\ map (fun q => length (put_MetricData q)) (accepted (backend r.2)) = [20]
  /\ last (log r.2) = Some (Spec.failure_record 1 Fixtures.throttled).
Proof. repeat split; reflexivity. Qed.

(** The test-suite scenario: 25 points go out as two requests (20 + 5). *)
Example publish_25_points :
  let r := publish_metrics Fixtures.test_config (fun _ => None)
             (replicate 25 (mkMetricValue "TestMetric" 1 "Count" [] 0)) None Fixtures.fresh_world in
  r.1 = Ok 25%Z
  /\ map (fun q => length (put_MetricData q)) (received (backend r.2)) = [20; 5].
Proof. split; reflexivity. Qed.

End Publisher.

(** ** The utilization client *)

Section Utilization.
Import CloudWatchMetricClient.

Lemma apply_result_datapoint i bids (results : gmap string (option Q)) r :
  apply_result i bids results r
  = match Spec.datapoint i bids r with
    | Some (k, v) => <[k := Some v]> results
    | None => results
    end.
Proof.
  unfold apply_result, Spec.datapoint.
  destruct (default "" (res_Id r)) as [|c rest]; [reflexivity|].
  destruct c as [[] [] [] [] [] [] [] []]; try reflexivity.
  destruct (py_int rest) as [idx|]; [|reflexivity]. simpl.
  destruct (py_index bids (idx - Z.of_nat i)) as [iid|]; [|reflexivity]. simpl.
  destruct (default [] (res_Values r)); reflexivity.
Qed.

Lemma py_index_elem {A} (l : list A) (k : Z) (x : A) :
  py_index l k = Some x -> x ∈ l.
Proof.
  unfold py_index. intros H.
  destruct (0 <=? k)%Z; [eapply list_elem_of_lookup_2; eassumption|].
  destruct (- Z.of_nat (length l) <=? k)%Z; [|discriminate].
  eapply list_elem_of_lookup_2; eassumption.
Qed.

Lemma datapoint_in_batch i bids r k v :
  Spec.datapoint i bids r = Some (k, v) -> k ∈ bids.
Proof.
  unfold Spec.datapoint.
  destruct (default "" (res_Id r)) as [|c rest]; [discriminate|].
  destruct c as [[] [] [] [] [] [] [] []]; try discriminate.
  destruct (py_int rest) as [idx|]; [|discriminate]. simpl.
  destruct (py_index bids (idx - Z.of_nat i)) as [iid|] eqn:E; [|discriminate]. simpl.
  destruct (head _); [|discriminate]. simpl. intros [= <- _].
  eapply py_index_elem; eassumption.
Qed.

Lemma slice_subseteq {A} (l : list A) i j : slice l i j ⊆ l.
Proof.
  unfold slice. etrans; [apply subseteq_take | apply subseteq_drop].
Qed.





Lemma apply_results_dom i bids rs (m : gmap string (option Q)) (ids : list string) :
  bids ⊆ ids -> dom m = list_to_set ids ->
  dom (fold_left (apply_result i bids) rs m) = list_to_set ids.
Proof.
  intros Hsub. revert m. induction rs as [|r rs IH]; intros m Hdom; simpl; [exact Hdom|].
  apply IH. rewrite apply_result_datapoint.
  destruct (Spec.datapoint i bids r) as [[k v]|] eqn:E; [|exact Hdom].
  apply datapoint_in_batch in E. rewrite dom_insert_L, Hdom.
  apply subseteq_union_1_L, singleton_subseteq_l.
  apply elem_of_list_to_set, Hsub, E.
Qed.

Lemma initial_results_lookup (ids : list string) (k : string) :
  initial_results ids !! k = if decide (k ∈ ids) then Some None else None.
Proof.
  unfold initial_results.
  assert (G : forall (m0 : gmap string (option Q)),
             fold_left (fun m iid => <[iid := None]> m) ids m0 !! k
             = if decide (k ∈ ids) then Some None else m0 !! k).
  { induction ids as [|x ids IH]; intros m0; simpl fold_left.
    - destruct (decide (k ∈ [])) as [H|H]; [|reflexivity].
      now apply not_elem_of_nil in H.
    - rewrite IH. destruct (decide (k ∈ ids)) as [Hin|Hnin].
      + rewrite decide_True; [reflexivity | now right].
      + destruct (decide (k = x)) as [->|Hne].
        * rewrite lookup_insert_eq. rewrite decide_True; [reflexivity | left].
        * rewrite lookup_insert_ne by congruence.
          rewrite decide_False; [reflexivity|].
          intros [?|?]%elem_of_cons; contradiction. }
  rewrite G. now rewrite lookup_empty.
Qed.

Lemma initial_results_dom (ids : list string) :
  dom (initial_results ids) = list_to_set ids.
Proof.
  apply set_eq. intros k. rewrite elem_of_dom, elem_of_list_to_set.
  rewrite initial_results_lookup. destruct (decide (k ∈ ids)); split; intros H;
    try assumption; try (eexists; reflexivity); try contradiction.
  destruct H as [? H]. discriminate.
Qed.

(** The loop is a fold of [batch_update] over the batch starts, and sends
    one request per start, whatever the outcome of the earlier ones. *)
Lemma batch_loop_fold gmd queries ids starts results trace :
  Spec.cw_only gmd ->
  batch_loop gmd queries ids starts results trace
  = (Ok (fold_left (Spec.batch_update gmd queries ids) starts results),
     trace ++ map (fun i => slice queries i (i + batch_size)) starts).
Proof.
  intros Hcw. revert results trace.
  induction starts as [|i starts IH]; intros results trace; simpl.
  - now rewrite app_nil_r.
  - unfold Spec.batch_update at 2.
    destruct (gmd (slice queries i (i + batch_size))) as [rs|e] eqn:E.
    + rewrite IH, <- app_assoc. reflexivity.
    + destruct (Hcw _ _ E) as [msg ->]. rewrite IH, <- app_assoc. reflexivity.
Qed.

Lemma batch_updates_dom gmd queries ids starts (m : gmap string (option Q)) :
  dom m = list_to_set ids ->
  dom (fold_left (Spec.batch_update gmd queries ids) starts m) = list_to_set ids.
Proof.
  revert m. induction starts as [|i starts IH]; intros m Hdom; simpl; [exact Hdom|].
  apply IH. unfold Spec.batch_update.
  destruct (gmd _); [|exact Hdom].
  apply apply_results_dom; [apply slice_subseteq | exact Hdom].
Qed.



Lemma build_queries_length ids metric_name namespace period stat :
  length (build_queries ids metric_name namespace period stat) = length ids.
Proof. unfold build_queries. now rewrite length_map, enumerate_length. Qed.



(** Two batches, the second of which fails: both are requested, the first
    one's datapoint is kept, and the instances without a datapoint, in the
    failed batch or not, are mapped to [None]. *)
Example query_501_instances :
  let r := query_instance_metrics Fixtures.fails_on_single Fixtures.many_instances
             "CPUUtilization" "AWS/EC2" 300 "Average" in
  map length r.2 = [500; 1]
  /\ exists m, r.1 = Ok m
       /\ m !! "i-0" = Some (Some 7%Q)
       /\ m !! "i-1" = Some None
       /\ m !! "i-500" = Some None
       /\ m !! "i-501" = None.
Proof.
  split; [vm_compute; reflexivity|].
  eexists. split; [reflexivity|]. repeat split; vm_compute; reflexivity.
Qed.


End Utilization.

(** ** The compliance client *)

Section Compliance.
Import SSMInventoryClient.

Lemma items_loop_other iid items (m : gmap string ComplianceStatus.t) k :
  k <> iid -> items_loop iid items m !! k = m !! k.
Proof.
  intros Hk. revert m. induction items as [|item items IH]; intros m; simpl; [reflexivity|].
  destruct (String.eqb _ "NON_COMPLIANT").
  - now rewrite lookup_insert_ne.
  - destruct (String.eqb _ "COMPLIANT"); rewrite IH; [|reflexivity].
    destruct (bool_decide _); [now rewrite lookup_insert_ne | reflexivity].
Qed.

Lemma items_loop_status iid items (m : gmap string ComplianceStatus.t) st :
  m !! iid = Some st ->
  items_loop iid items m !! iid = Some (Spec.merge st items).
Proof.
  revert m st. induction items as [|item items IH]; intros m st Hm; simpl.
  - exact Hm.
  - unfold Spec.merge. simpl existsb.
    unfold Spec.is_non_compliant at 1, Spec.is_compliant at 1.
    destruct (String.eqb _ "NON_COMPLIANT") eqn:Enc; simpl.
    + now rewrite lookup_insert_eq.
    + destruct (String.eqb _ "COMPLIANT") eqn:Ec; simpl.
      * rewrite Hm. destruct st.
        -- rewrite bool_decide_eq_false_2 by discriminate.
           rewrite (IH m ComplianceStatus.COMPLIANT Hm). unfold Spec.merge.
           destruct (existsb Spec.is_non_compliant items),
             (existsb Spec.is_compliant items); reflexivity.
        -- rewrite bool_decide_eq_false_2 by discriminate.
           rewrite (IH m ComplianceStatus.NON_COMPLIANT Hm). unfold Spec.merge.
           destruct (existsb Spec.is_non_compliant items),
             (existsb Spec.is_compliant items); reflexivity.
        -- rewrite bool_decide_eq_true_2 by reflexivity.
           rewrite (IH _ ComplianceStatus.COMPLIANT) by apply lookup_insert_eq.
           unfold Spec.merge.
           destruct (existsb Spec.is_non_compliant items),
             (existsb Spec.is_compliant items); reflexivity.
      * rewrite (IH m st Hm). reflexivity.
Qed.

Lemma merge_app st a b : Spec.merge (Spec.merge st a) b = Spec.merge st (a ++ b).
Proof.
  unfold Spec.merge. rewrite !existsb_app.
  destruct (existsb Spec.is_non_compliant a), (existsb Spec.is_non_compliant b),
    (existsb Spec.is_compliant a), (existsb Spec.is_compliant b), st; reflexivity.
Qed.

Lemma merge_nil st : Spec.merge st [] = st.
Proof. reflexivity. Qed.

Lemma merge_unknown findings :
  Spec.merge ComplianceStatus.UNKNOWN findings = Spec.merge_policy findings.
Proof. reflexivity. Qed.

Lemma pages_loop_other iid pgs (m : gmap string ComplianceStatus.t) k :
  k <> iid -> pages_loop iid pgs m !! k = m !! k.
Proof.
  intros Hk. unfold pages_loop. revert m.
  induction pgs as [|pg pgs IH]; intros m; simpl; [reflexivity|].
  rewrite IH. now apply items_loop_other.
Qed.

Lemma pages_loop_status iid pgs (m : gmap string ComplianceStatus.t) st :
  m !! iid = Some st ->
  pages_loop iid pgs m !! iid = Some (Spec.merge st (concat pgs)).
Proof.
  unfold pages_loop. revert m st.
  induction pgs as [|pg pgs IH]; intros m st Hm; simpl; [exact Hm|].
  rewrite (IH _ (Spec.merge st pg)) by (now apply items_loop_status).
  now rewrite merge_app.
Qed.

(** The instance loop never raises: it is a fold over the instances. *)
Lemma instances_loop_fold backend entries (m : gmap string ComplianceStatus.t) :
  instances_loop backend entries m
  = Ok (fold_left
          (fun m (entry : nat * string) =>
             pages_loop entry.2 (pages (backend entry.1 entry.2)) m)
          entries m).
Proof.
  revert m. induction entries as [|[n iid] entries IH]; intros m; simpl; [reflexivity|].
  unfold paginate_loop. destruct (failure (backend n iid)); apply IH.
Qed.

Lemma fold_pages_other backend entries (m : gmap string ComplianceStatus.t) k :
  k ∉ entries.*2 ->
  fold_left
    (fun m (entry : nat * string) =>
       pages_loop entry.2 (pages (backend entry.1 entry.2)) m)
    entries m !! k = m !! k.
Proof.
  revert m. induction entries as [|[n iid] entries IH]; intros m Hk; simpl; [reflexivity|].
  simpl in Hk. apply not_elem_of_cons in Hk as [Hne Hk].
  rewrite IH by exact Hk. now apply pages_loop_other.
Qed.

Lemma fold_pages_status backend entries (m : gmap string ComplianceStatus.t) iid st :
  m !! iid = Some st ->
  fold_left
    (fun m (entry : nat * string) =>
       pages_loop entry.2 (pages (backend entry.1 entry.2)) m)
    entries m !! iid
  = Some (Spec.merge st
            (concat (map (fun entry : nat * string =>
                            if decide (entry.2 = iid)
                            then concat (pages (backend entry.1 entry.2))
                            else [])
                         entries))).
Proof.
  revert m st. induction entries as [|[n id0] entries IH]; intros m st Hm; simpl.
  - exact Hm.
  - destruct (decide (id0 = iid)) as [->|Hne].
    + rewrite (IH _ (Spec.merge st (concat (pages (backend n iid)))))
        by (now apply pages_loop_status).
      now rewrite merge_app.
    + simpl. apply IH. rewrite pages_loop_other by congruence. exact Hm.
Qed.

Lemma initial_map_lookup (ids : list string) (k : string) :
  initial_map ids !! k
  = if decide (k ∈ ids) then Some ComplianceStatus.UNKNOWN else None.
Proof.
  unfold initial_map.
  assert (G : forall (m0 : gmap string ComplianceStatus.t),
             fold_left (fun m iid => <[iid := ComplianceStatus.UNKNOWN]> m) ids m0 !! k
             = if decide (k ∈ ids) then Some ComplianceStatus.UNKNOWN else m0 !! k).
  { induction ids as [|x ids IH]; intros m0; simpl fold_left.
    - destruct (decide (k ∈ [])) as [H|H]; [|reflexivity].
      now apply not_elem_of_nil in H.
    - rewrite IH. destruct (decide (k ∈ ids)) as [Hin|Hnin].
      + rewrite decide_True; [reflexivity | now right].
      + destruct (decide (k = x)) as [->|Hne].
        * rewrite lookup_insert_eq. rewrite decide_True; [reflexivity | left].
        * rewrite lookup_insert_ne by congruence.
          rewrite decide_False; [reflexivity|].
          intros [?|?]%elem_of_cons; contradiction. }
  rewrite G. now rewrite lookup_empty.
Qed.

Lemma existsb_Permutation {A} (f : A -> bool) (l l' : list A) :
  l ≡ₚ l' -> existsb f l = existsb f l'.
Proof.
  intros HP. induction HP as [|x l l' _ IH|x y l|l l' l'' _ IH1 _ IH2]; simpl.
  - reflexivity.
  - now rewrite IH.
  - destruct (f x), (f y); reflexivity.
  - congruence.
Qed.

Lemma merge_policy_Permutation findings findings' :
  findings ≡ₚ findings' -> Spec.merge_policy findings = Spec.merge_policy findings'.
Proof.
  intros HP. unfold Spec.merge_policy.
  now rewrite (existsb_Permutation _ _ _ HP), (existsb_Permutation Spec.is_compliant _ _ HP).
Qed.

(** What the function returns, entry by entry. *)
Lemma get_instance_compliance_lookup backend ids :
  exists m, get_instance_compliance backend ids = Ok m
    /\ forall k, m !! k
         = if decide (k ∈ ids)
           then Some (Spec.merge_policy (Spec.findings_for backend ids k))
           else None.
Proof.
  unfold get_instance_compliance.
  destruct ids as [|x ids'] eqn:Eids.
  - eexists. split; [reflexivity|]. intros k. rewrite initial_map_lookup.
    destruct (decide (k ∈ [])) as [H|H]; [now apply not_elem_of_nil in H | reflexivity].
  - rewrite <- Eids. rewrite instances_loop_fold.
    eexists. split; [reflexivity|]. intros k.
    destruct (decide (k ∈ ids)) as [Hin|Hnin].
    + rewrite (fold_pages_status _ _ _ k ComplianceStatus.UNKNOWN).
      * reflexivity.
      * rewrite initial_map_lookup. now rewrite decide_True.
    + rewrite fold_pages_other.
      * rewrite initial_map_lookup. now rewrite decide_False.
      * change (enumerate ids).*2 with (map snd (enumerate ids)).
        now rewrite enumerate_snd.
Qed.

(** C8, as the code has it: [get_instance_compliance] never raises and
    gives every instance an entry; the entry is NON_COMPLIANT if any finding
    served for the instance is non-compliant, else COMPLIANT if at least one
    is compliant, else UNKNOWN, so it does not depend on the order of the
    findings nor on how they are split into pages.  A query that fails does
    not stop the other instances; the findings served before the failure
    still count, and the entry is UNKNOWN when none of them is compliant or
    non-compliant, in particular when the first page request fails. *)
Theorem get_instance_compliance_policy backend ids :
  exists m,
    get_instance_compliance backend ids = Ok m
    /\ dom m = list_to_set ids
    /\ (forall iid, iid ∈ ids ->
          m !! iid = Some (Spec.merge_policy (Spec.findings_for backend ids iid)))
    /\ (forall backend',
          (forall iid, Spec.findings_for backend ids iid
                       ≡ₚ Spec.findings_for backend' ids iid) ->
          get_instance_compliance backend' ids = Ok m)
    /\ (forall iid, iid ∈ ids ->
          Forall (fun f => Spec.is_non_compliant f = false
                           /\ Spec.is_compliant f = false)
                 (Spec.findings_for backend ids iid) ->
          m !! iid = Some ComplianceStatus.UNKNOWN)
    /\ (forall n iid, NoDup ids -> ids !! n = Some iid ->
          pages (backend n iid) = [] ->
          m !! iid = Some ComplianceStatus.UNKNOWN).
Proof.
  destruct (get_instance_compliance_lookup backend ids) as (m & Hrun & Hm).
  exists m. split; [exact Hrun|].
  assert (Hin : forall iid, iid ∈ ids ->
            m !! iid = Some (Spec.merge_policy (Spec.findings_for backend ids iid))).
  { intros iid Hi. rewrite Hm. now rewrite decide_True. }
  assert (Hquiet : forall iid, iid ∈ ids ->
            Forall (fun f => Spec.is_non_compliant f = false
                             /\ Spec.is_compliant f = false)
                   (Spec.findings_for backend ids iid) ->
            m !! iid = Some ComplianceStatus.UNKNOWN).
  { intros iid Hi Hall. rewrite (Hin iid Hi). unfold Spec.merge_policy.
    assert (Hboth : existsb Spec.is_non_compliant (Spec.findings_for backend ids iid) = false
                    /\ existsb Spec.is_compliant (Spec.findings_for backend ids iid) = false).
    { induction Hall as [|f fs [Hf Hf'] _ [IH IH']]; simpl; [now split|].
      now rewrite Hf, Hf'. }
    destruct Hboth as [-> ->]. reflexivity. }
  split; [|split; [exact Hin|split; [|split; [exact Hquiet|]]]].
  - apply set_eq. intros k. rewrite elem_of_dom, elem_of_list_to_set, Hm.
    destruct (decide (k ∈ ids)); split; intros H;
      try assumption; try (eexists; reflexivity); try contradiction.
    destruct H as [? H]. discriminate.
  - intros backend' Hperm.
    destruct (get_instance_compliance_lookup backend' ids) as (m' & Hrun' & Hm').
    rewrite Hrun'. f_equal. apply map_eq. intros k. rewrite Hm, Hm'.
    destruct (decide (k ∈ ids)); [|reflexivity].
    f_equal. symmetry. apply merge_policy_Permutation, Hperm.
  - intros n iid Hnd Hn Hpages.
    apply Hquiet; [eapply list_elem_of_lookup_2; eassumption|].
    unfold Spec.findings_for.
    apply Forall_concat, Forall_fmap, Forall_forall.
    intros [n' id'] Hentry. simpl.
    destruct (decide (id' = iid)) as [->|Hne]; [|constructor].
    assert (n' = n) as ->.
    { unfold enumerate in Hentry.
      apply list_elem_of_lookup in Hentry as [j Hj].
      rewrite lookup_zip_with in Hj.
      destruct (seq 0 (length ids) !! j) as [j'|] eqn:Ej; [|discriminate].
      apply lookup_seq in Ej as [-> _]. simpl in Hj.
      destruct (ids !! j) as [x|] eqn:Ex; [|discriminate].
      simpl in Hj. injection Hj as <- ->.
      eapply NoDup_lookup; eassumption. }
    rewrite Hpages. constructor.
Qed.

(** C8 as stated fails on the failure clause: a query that fails after a
    page with a compliant finding leaves the instance COMPLIANT, not
    UNKNOWN. *)
Lemma failure_after_finding_keeps_status : ~ Spec.failure_yields_unknown.
Proof.
  intros H.
  specialize (H Fixtures.partial_then_failure ["i-1"] 0 "i-1"
                (<["i-1" := ComplianceStatus.COMPLIANT]> ∅)).
  assert (Hnd : NoDup ["i-1"]) by (repeat constructor; apply not_elem_of_nil).
  assert (Hfail : is_Some (failure (Fixtures.partial_then_failure 0 "i-1")))
    by (eexists; reflexivity).
  assert (Hrun : get_instance_compliance Fixtures.partial_then_failure ["i-1"]
                 = Ok (<["i-1" := ComplianceStatus.COMPLIANT]> ∅)).
  { destruct (get_instance_compliance_lookup Fixtures.partial_then_failure ["i-1"])
      as (m & -> & Hm).
    f_equal. apply map_eq. intros k. rewrite Hm.
    destruct (decide (k ∈ ["i-1"])) as [Hk|Hk].
    - apply list_elem_of_singleton in Hk as ->. now rewrite lookup_insert_eq.
    - rewrite lookup_insert_ne; [now rewrite lookup_empty|].
      intros <-. apply Hk. left. }
  specialize (H Hnd eq_refl Hfail Hrun).
  rewrite lookup_insert_eq in H. discriminate H.
Qed.

Example compliance_pages_and_break :
  (* a NON_COMPLIANT finding on the first page, COMPLIANT ones after it *)
  exists m,
    get_instance_compliance
      (fun _ _ => mkPaginated
         [[mkItem (Some "Non_Compliant"); mkItem (Some "COMPLIANT")];
          [mkItem (Some "compliant"); mkItem None]] None)
      ["i-1"] = Ok m
    /\ m !! "i-1" = Some ComplianceStatus.NON_COMPLIANT.
Proof. eexists. split; [reflexivity|]. vm_compute. reflexivity. Qed.

End Compliance.

(** ** The snapshot *)

Section Snapshot.
Import Handler.

Lemma count_instance_get0 (m : gmap string Z) (inst : InstanceMetrics) (k : string) :
  get0 (EC2InstanceClient.count_instance m inst) k
  = if decide (lower (state inst) = k) then (get0 m k + 1)%Z else get0 m k.
Proof.
  unfold EC2InstanceClient.count_instance, get0.
  destruct (decide (lower (state inst) = k)) as [<-|Hne].
  - destruct (m !! lower (state inst)) as [n|] eqn:E;
      rewrite lookup_insert_eq; reflexivity.
  - destruct (m !! lower (state inst)) as [n|] eqn:E;
      rewrite lookup_insert_ne by exact Hne; reflexivity.
Qed.

Lemma in_state_cons st inst instances :
  Spec.in_state st (inst :: instances)
  = ((if decide (lower (state inst) = st) then 1 else 0) + Spec.in_state st instances)%Z.
Proof.
  unfold Spec.in_state. rewrite filter_cons.
  destruct (decide (lower (state inst) = st)); simpl length; lia.
Qed.

Lemma counts_fold instances (m : gmap string Z) (k : string) :
  get0 (fold_left EC2InstanceClient.count_instance instances m) k
  = (get0 m k + Spec.in_state k instances)%Z.
Proof.
  revert m. induction instances as [|inst instances IH]; intros m; simpl.
  - unfold Spec.in_state. simpl. lia.
  - rewrite IH, count_instance_get0, in_state_cons.
    destruct (decide (lower (state inst) = k)); lia.
Qed.

Lemma counts_by_state instances (k : string) :
  k ∈ ["running"; "stopped"; "pending"] ->
  get0 (EC2InstanceClient.get_instance_counts_by_state instances) k
  = Spec.in_state k instances.
Proof.
  intros Hk. unfold EC2InstanceClient.get_instance_counts_by_state.
  rewrite counts_fold.
  assert (H0 : get0 EC2InstanceClient.initial_counts k = 0%Z).
  { repeat (apply elem_of_cons in Hk as [->|Hk]; [reflexivity|]).
    now apply not_elem_of_nil in Hk. }
  lia.
Qed.

Lemma in_state_nonneg st instances : (0 <= Spec.in_state st instances)%Z.
Proof. unfold Spec.in_state. lia. Qed.

(** An instance is in one state: the three tracked counts do not overlap. *)
Lemma in_state_disjoint instances :
  (Spec.in_state "running" instances + Spec.in_state "stopped" instances
   + Spec.in_state "pending" instances <= Z.of_nat (length instances))%Z.
Proof.
  induction instances as [|inst instances IH].
  - unfold Spec.in_state. simpl. lia.
  - rewrite !in_state_cons. simpl length.
    destruct (decide (lower (state inst) = "running")) as [E|];
      destruct (decide (lower (state inst) = "stopped")) as [E'|];
      destruct (decide (lower (state inst) = "pending")) as [E''|];
      try (rewrite E in *; discriminate); try (rewrite E' in *; discriminate); lia.
Qed.

Lemma average_total (values : list Q) : exists v, average values = Ok v.
Proof.
  unfold average. destruct values as [|x values]; [eexists; reflexivity|].
  rewrite div_ok; [eexists; reflexivity|].
  intros Hz. unfold Qeq in Hz. simpl in Hz. lia.
Qed.

Lemma aggregate_instance_metrics_counts instances state_counts compliance_data :
  exists fm,
    _aggregate_instance_metrics instances state_counts compliance_data = Ok fm
    /\ total_instances fm = Z.of_nat (length instances)
    /\ running_instances fm = get0 state_counts "running"
    /\ stopped_instances fm = get0 state_counts "stopped"
    /\ pending_instances fm = get0 state_counts "pending"
    /\ instance_metrics fm = instances.
Proof.
  unfold _aggregate_instance_metrics.
  destruct (filter (fun i => state i = "running"%string) instances) as [|r rs].
  - simpl. eexists. repeat split; reflexivity.
  - destruct (average_total (omap cpu_utilization (r :: rs))) as (a1 & ->).
    destruct (average_total (omap memory_utilization (r :: rs))) as (a2 & ->).
    destruct (average_total (omap disk_utilization (r :: rs))) as (a3 & ->).
    simpl. eexists. repeat split; reflexivity.
Qed.

(** C9: the snapshot built from any list of instance observations, with the
    counts taken per instance state and the total taken as the length of
    the list, has non-negative [total_instances], [running_instances],
    [stopped_instances] and [pending_instances], and
    [running + stopped + pending <= total]: each instance is in one state
    and adds to at most one of the three counts. *)
Theorem snapshot_counts_invariant instances compliance_data :
  (exists fm,
     _aggregate_instance_metrics instances
       (EC2InstanceClient.get_instance_counts_by_state instances) compliance_data
     = Ok fm
     /\ total_instances fm = Z.of_nat (length instances)
     /\ running_instances fm = Spec.in_state "running" instances
     /\ stopped_instances fm = Spec.in_state "stopped" instances
     /\ pending_instances fm = Spec.in_state "pending" instances
     /\ Spec.counts_invariant fm)
  /\ (exists fm,
       build_snapshot instances compliance_data = Ok fm
       /\ Spec.counts_invariant fm).
Proof.
  assert (H : exists fm,
     _aggregate_instance_metrics instances
       (EC2InstanceClient.get_instance_counts_by_state instances) compliance_data
     = Ok fm
     /\ total_instances fm = Z.of_nat (length instances)
     /\ running_instances fm = Spec.in_state "running" instances
     /\ stopped_instances fm = Spec.in_state "stopped" instances
     /\ pending_instances fm = Spec.in_state "pending" instances
     /\ Spec.counts_invariant fm).
  { destruct (aggregate_instance_metrics_counts instances
                (EC2InstanceClient.get_instance_counts_by_state instances)
                compliance_data) as (fm & Hrun & Ht & Hr & Hs & Hp & _).
    rewrite counts_by_state in Hr by (repeat constructor).
    rewrite counts_by_state in Hs by (repeat constructor).
    rewrite counts_by_state in Hp by (repeat constructor).
    exists fm. repeat (split; [assumption|]).
    unfold Spec.counts_invariant. rewrite Ht, Hr, Hs, Hp.
    pose proof (in_state_nonneg "running" instances).
    pose proof (in_state_nonneg "stopped" instances).
    pose proof (in_state_nonneg "pending" instances).
    pose proof (in_state_disjoint instances).
    repeat split; lia. }
  split; [exact H|].
  unfold build_snapshot. destruct instances as [|inst instances'].
  - eexists. split; [reflexivity|]. unfold Spec.counts_invariant. simpl. lia.
  - destruct H as (fm & Hrun & _ & _ & _ & _ & Hinv). eauto.
Qed.

Example snapshot_counts_example :
  let inst id st := mkInstanceMetrics id "t3.large" "us-east-1a" st None None None None 0 in
  exists fm,
    build_snapshot [inst "i-1" "running"; inst "i-2" "Running"; inst "i-3" "stopped";
                    inst "i-4" "pending"; inst "i-5" "terminated"] ∅ = Ok fm
    /\ total_instances fm = 5%Z /\ running_instances fm = 2%Z
    /\ stopped_instances fm = 1%Z /\ pending_instances fm = 1%Z.
Proof. eexists. split; [vm_compute; reflexivity|]. repeat split; reflexivity. Qed.

End Snapshot.

(** * Further properties of the scoring functions *)

Section ScoreRanges.
Local Open Scope Q_scope.





Lemma Qdiv_le_mono (a b d : Q) : 0 < d -> a <= b -> a / d <= b / d.
Proof.
  intros Hd Hab. unfold Qdiv. apply Qmult_le_compat_r; [exact Hab|].
  apply Qlt_le_weak, Qinv_lt_0_compat, Hd.
Qed.

(** The curve by regions. *)
Lemma utilization_health_low (u w c : Q) :
  0 < w -> w < c -> u <= w ->
  Spec.utilization_health u w c == 100 - (u / w) * 30
  /\ 70 <= Spec.utilization_health u w c.
Proof.
  intros Hw Hc Hu. unfold Spec.utilization_health.
  destruct (Qlt_le_dec w u); [lra|]. split; [reflexivity|].
  assert (u / w <= 1) by (apply Qle_shift_div_r; lra). lra.
Qed.

Lemma utilization_health_mid (u w c : Q) :
  0 < w -> w < c -> w < u <= c ->
  Spec.utilization_health u w c == 70 - ((u - w) / (c - w)) * 40
  /\ 30 <= Spec.utilization_health u w c < 70.
Proof.
  intros Hw Hc [Hu1 Hu2]. unfold Spec.utilization_health.
  destruct (Qlt_le_dec w u); [|lra]. destruct (Qlt_le_dec c u); [lra|].
  split; [reflexivity|].
  assert ((u - w) / (c - w) <= 1) by (apply Qle_shift_div_r; lra).
  assert (0 < (u - w) / (c - w)) by (apply Qlt_shift_div_l; lra).
  lra.
Qed.

Lemma utilization_health_high (u w c : Q) :
  0 < w -> w < c -> c < u ->
  Spec.utilization_health u w c == 30 - Qmin 1 ((u - c) / 10) * 30
  /\ 0 <= Spec.utilization_health u w c < 30.
Proof.
  intros Hw Hc Hu. unfold Spec.utilization_health.
  destruct (Qlt_le_dec w u); [|lra]. destruct (Qlt_le_dec c u); [|lra].
  split; [reflexivity|].
  assert (0 < (u - c) / 10) by (apply Qlt_shift_div_l; lra).
  destruct (Q.min_spec 1 ((u - c) / 10)) as [[L E]|[L E]]; rewrite E; lra.
Qed.

Lemma utilization_health_antitone (u1 u2 w c : Q) :
  0 < w -> w < c -> u1 <= u2 ->
  Spec.utilization_health u2 w c <= Spec.utilization_health u1 w c.
Proof.
  intros Hw Hc Hu.
  destruct (Qlt_le_dec w u1) as [H1|H1]; destruct (Qlt_le_dec w u2) as [H2|H2];
    try lra.
  - destruct (Qlt_le_dec c u1) as [H1'|H1']; destruct (Qlt_le_dec c u2) as [H2'|H2'];
      try lra.
    + destruct (utilization_health_high u1 w c Hw Hc H1') as [E1 _].
      destruct (utilization_health_high u2 w c Hw Hc H2') as [E2 _].
      rewrite E1, E2.
      assert ((u1 - c) / 10 <= (u2 - c) / 10) by (apply Qdiv_le_mono; lra).
      assert (Qmin 1 ((u1 - c) / 10) <= Qmin 1 ((u2 - c) / 10))
        by (apply Q.min_le_compat_l; assumption).
      lra.
    + destruct (utilization_health_mid u1 w c Hw Hc (conj H1 H1')) as [_ B1].
      destruct (utilization_health_high u2 w c Hw Hc H2') as [_ B2]. lra.
    + destruct (utilization_health_mid u1 w c Hw Hc (conj H1 H1')) as [E1 _].
      destruct (utilization_health_mid u2 w c Hw Hc (conj H2 H2')) as [E2 _].
      rewrite E1, E2.
      assert ((u1 - w) / (c - w) <= (u2 - w) / (c - w)) by (apply Qdiv_le_mono; lra).
      lra.
  - destruct (utilization_health_low u1 w c Hw Hc H1) as [_ B1].
    destruct (Qlt_le_dec c u2) as [H2'|H2'].
    + destruct (utilization_health_high u2 w c Hw Hc H2') as [_ B2]. lra.
    + destruct (utilization_health_mid u2 w c Hw Hc (conj H2 H2')) as [_ B2]. lra.
  - destruct (utilization_health_low u1 w c Hw Hc H1) as [E1 _].
    destruct (utilization_health_low u2 w c Hw Hc H2) as [E2 _].
    rewrite E1, E2.
    assert (u1 / w <= u2 / w) by (apply Qdiv_le_mono; lra). lra.
Qed.

(** X1: for thresholds [0 < w < c] the utilization health never increases
    with the utilization. *)
Theorem utilization_health_monotone (u1 u2 w c : Q) :
  0 < w -> w < c -> u1 <= u2 ->
  exists h1 h2,
    FleetHealthScore._calculate_utilization_health u1 w c = Ok h1
    /\ FleetHealthScore._calculate_utilization_health u2 w c = Ok h2
    /\ h2 <= h1.
Proof.
  intros Hw Hc Hu.
  destruct (utilization_health_refines u1 w c Hw Hc) as (h1 & E1 & R1).
  destruct (utilization_health_refines u2 w c Hw Hc) as (h2 & E2 & R2).
  exists h1, h2. split; [exact E1|]. split; [exact E2|].
  rewrite R1, R2. now apply utilization_health_antitone.
Qed.

Lemma utilization_health_monotone_witness :
  0 < 70 /\ 70 < 90 /\ 60 <= 95
  /\ exists h1 h2,
       FleetHealthScore._calculate_utilization_health 60 70 90 = Ok h1
       /\ FleetHealthScore._calculate_utilization_health 95 70 90 = Ok h2
       /\ h2 <= h1.
Proof.
  assert (H1 : 0 < 70) by reflexivity.
  assert (H2 : 70 < 90) by reflexivity.
  assert (H3 : 60 <= 95) by lra.
  split; [exact H1|]. split; [exact H2|]. split; [exact H3|].
  exact (utilization_health_monotone 60 95 70 90 H1 H2 H3).
Defined.



End ScoreRanges.

Section ScoreBounds.
Local Open Scope Q_scope.

Lemma round_lower (a : Z) (x : Q) (n : nat) :
  inject_Z a <= x -> inject_Z a <= Py.round x n.
Proof.
  intros Ha. unfold Py.round.
  pose proof (pow10_pos n) as Hp. set (P := (10 ^ Z.of_nat n)%Z) in *.
  pose proof (round_half_even_error (x * inject_Z P)) as [H1 H2].
  assert (Hq : inject_Z a * inject_Z P <= x * inject_Z P)
    by (apply Qmult_le_compat_r; lra).
  assert (Hk : (a * P <= Py.round_half_even (x * inject_Z P))%Z).
  { assert (H : inject_Z (a * P - 1) < inject_Z (Py.round_half_even (x * inject_Z P))).
    { unfold Z.sub. rewrite inject_Z_plus, inject_Z_opp, inject_Z_mult.
      change (inject_Z 1) with 1. lra. }
    rewrite <- Zlt_Qlt in H. lia. }
  rewrite Zle_Qle, inject_Z_mult in Hk.
  apply Qle_shift_div_l; assumption.
Qed.

Lemma round_upper (b : Z) (x : Q) (n : nat) :
  x <= inject_Z b -> Py.round x n <= inject_Z b.
Proof.
  intros Hb. unfold Py.round.
  pose proof (pow10_pos n) as Hp. set (P := (10 ^ Z.of_nat n)%Z) in *.
  pose proof (round_half_even_error (x * inject_Z P)) as [H1 H2].
  assert (Hq : x * inject_Z P <= inject_Z b * inject_Z P)
    by (apply Qmult_le_compat_r; lra).
  assert (Hk : (Py.round_half_even (x * inject_Z P) <= b * P)%Z).
  { assert (H : inject_Z (Py.round_half_even (x * inject_Z P)) < inject_Z (b * P + 1)).
    { rewrite inject_Z_plus, inject_Z_mult. change (inject_Z 1) with 1. lra. }
    rewrite <- Zlt_Qlt in H. lia. }
  rewrite Zle_Qle, inject_Z_mult in Hk.
  apply Qle_shift_div_r; assumption.
Qed.

Lemma clamp_id (x : Q) : 0 <= x <= 100 -> Spec.clamp x == x.
Proof.
  intros [H0 H1]. unfold Spec.clamp.
  destruct (Qlt_le_dec x 0); [lra|]. destruct (Qlt_le_dec 100 x); lra.
Qed.


Lemma count_class_nonneg k l : (0 <= Spec.count_class k l)%Z.
Proof. unfold Spec.count_class. lia. Qed.

(** X4: the cost efficiency score lies in [[0, 100]]; when
    [running_instances] is not 0 it is at least 10, so its status is never
    UNKNOWN. *)
Theorem cost_efficiency_score_range (fm : FleetMetrics) :
  exists v, CostEfficiencyScore.calculate fm = Ok v
    /\ 0 <= v <= 100
    /\ (running_instances fm <> 0%Z ->
        10 <= v /\ CostEfficiencyScore.get_status v <> UNKNOWN).
Proof.
  destruct (cost_efficiency_refines fm) as (v & Hv & Heq).
  exists v. split; [exact Hv|].
  assert (Hrange : 0 <= v <= 100
                   /\ (running_instances fm <> 0%Z -> 10 <= v)).
  { rewrite Heq. unfold Spec.cost_efficiency_score.
    destruct (Z.eqb_spec (running_instances fm) 0) as [E|E].
    { split; [lra | intros; contradiction]. }
    pose proof (count_class_nonneg Spec.Idle (instance_metrics fm)) as Hi.
    pose proof (count_class_nonneg Spec.Underutilized (instance_metrics fm)) as Hu.
    pose proof (count_class_nonneg Spec.WellUtilized (instance_metrics fm)) as Hw.
    set (i := Spec.count_class Spec.Idle (instance_metrics fm)) in *.
    set (u := Spec.count_class Spec.Underutilized (instance_metrics fm)) in *.
    set (w := Spec.count_class Spec.WellUtilized (instance_metrics fm)) in *.
    destruct (Z.eqb_spec (i + u + w) 0) as [E0|E0]; [lra|].
    assert (Hc : 0 < inject_Z (i + u + w))
      by (change 0 with (inject_Z 0); rewrite <- Zlt_Qlt; lia).
    assert (Hlo : 10 <= inject_Z (w * 100 + u * 50 + i * 10) / inject_Z (i + u + w)).
    { apply Qle_shift_div_l; [exact Hc|].
      change 10 with (inject_Z 10). rewrite <- inject_Z_mult, <- Zle_Qle. lia. }
    assert (Hhi : inject_Z (w * 100 + u * 50 + i * 10) / inject_Z (i + u + w) <= 100).
    { apply Qle_shift_div_r; [exact Hc|].
      change 100 with (inject_Z 100). rewrite <- inject_Z_mult, <- Zle_Qle. lia. }
    assert (Hcl : 10 <= Spec.clamp (inject_Z (w * 100 + u * 50 + i * 10)
                                    / inject_Z (i + u + w)) <= 100).
    { rewrite clamp_id by lra. lra. }
    pose proof (round_lower 10 _ 2 (proj1 Hcl)) as R1.
    pose proof (round_upper 100 _ 2 (proj2 Hcl)) as R2.
    change (inject_Z 10) with 10 in R1. change (inject_Z 100) with 100 in R2.
    split; [lra | intros _; exact R1]. }
  destruct Hrange as [Hr Hpos]. split; [exact Hr|].
  intros Hne. specialize (Hpos Hne). split; [exact Hpos|].
  unfold CostEfficiencyScore.get_status.
  destruct (Qle_bool 70 v); [discriminate|].
  destruct (Qle_bool 40 v); [discriminate|].
  assert (E : Py.Qltb 0 v = true) by (apply Qltb_lt; lra).
  rewrite E. discriminate.
Qed.


Lemma sum_bounds (l : list Q) :
  Forall (fun a => 0 < a) l ->
  0 <= fold_right Qplus 0 l
  /\ (Forall (fun a => a <= 100) l ->
      fold_right Qplus 0 l <= 100 * inject_Z (Z.of_nat (length l))).
Proof.
  induction 1 as [|a l Ha _ [IH1 IH2]]; simpl fold_right.
  - split; [lra|]. intros _. simpl length. change (inject_Z (Z.of_nat 0)) with 0. lra.
  - split; [lra|]. intros Hle. inversion Hle as [|? ? Ha' Hl']; subst.
    specialize (IH2 Hl'). simpl length.
    rewrite Nat2Z.inj_succ. unfold Z.succ. rewrite inject_Z_plus.
    change (inject_Z 1) with 1. lra.
Qed.

Lemma mean_bounds (l : list Q) :
  l <> [] -> Forall (fun a => 0 < a) l ->
  0 <= Spec.mean l /\ (Forall (fun a => a <= 100) l -> Spec.mean l <= 100).
Proof.
  intros Hne Hpos. destruct (sum_bounds l Hpos) as [S1 S2].
  assert (Hn : 0 < inject_Z (Z.of_nat (length l))).
  { change 0 with (inject_Z 0). rewrite <- Zlt_Qlt. destruct l; [contradiction|].
    simpl length. lia. }
  unfold Spec.mean. split.
  - apply Qle_shift_div_l; [exact Hn | lra].
  - intros Hle. apply Qle_shift_div_r; [exact Hn | auto].
Qed.

Lemma present_averages_positive (fm : FleetMetrics) :
  Forall (fun a => 0 < a) (Spec.present_averages fm).
Proof.
  unfold Spec.present_averages. apply List.Forall_forall. intros a Ha.
  apply List.filter_In in Ha as [_ Ha]. destruct (Qlt_le_dec 0 a); [assumption|discriminate].
Qed.

(** X6: the capacity utilization score is never negative, and it is at most
    100 when the three averages are. *)
Theorem capacity_utilization_range (fm : FleetMetrics) :
  exists v, CapacityUtilization.calculate fm = Ok v
    /\ 0 <= v
    /\ (avg_cpu_utilization fm <= 100 -> avg_memory_utilization fm <= 100 ->
        avg_disk_utilization fm <= 100 -> v <= 100).
Proof.
  destruct (capacity_utilization_refines fm) as (v & Hv & Heq & _).
  exists v. split; [exact Hv|]. rewrite Heq.
  unfold Spec.capacity_utilization.
  destruct (running_instances fm =? 0)%Z; [split; [lra | intros; lra]|].
  pose proof (present_averages_positive fm) as Hpos.
  destruct (Spec.present_averages fm) as [|a l] eqn:E; [split; [lra | intros; lra]|].
  destruct (mean_bounds (a :: l)) as [M1 M2]; [discriminate | exact Hpos |].
  split.
  - apply (round_lower 0). exact M1.
  - intros Hc Hm Hd. apply (round_upper 100). apply M2.
    rewrite <- E. unfold Spec.present_averages. apply List.Forall_forall.
    intros x Hx. apply List.filter_In in Hx as [Hx _].
    simpl in Hx. destruct Hx as [<-|[<-|[<-|[]]]]; assumption.
Qed.

(** X7: the three threshold classifiers are monotone: a higher score never
    gets a worse status. *)
Theorem threshold_status_monotone (s1 s2 : Q) :
  s1 <= s2 ->
  (status_rank (FleetHealthScore.get_status s1)
     <= status_rank (FleetHealthScore.get_status s2))%nat
  /\ (status_rank (ComplianceScore.get_status s1)
      <= status_rank (ComplianceScore.get_status s2))%nat
  /\ (status_rank (CostEfficiencyScore.get_status s1)
      <= status_rank (CostEfficiencyScore.get_status s2))%nat.
Proof.
  intros Hle.
  unfold FleetHealthScore.get_status, ComplianceScore.get_status,
    CostEfficiencyScore.get_status, Thresholds.COMPLIANCE_WARNING,
    Thresholds.COMPLIANCE_CRITICAL.
  repeat split;
    repeat match goal with
    | |- context [Qle_bool ?a ?b] =>
      let E := fresh "E" in
      destruct (Qle_bool a b) eqn:E;
      [apply Qle_bool_iff in E | apply Qle_bool_false in E]
    | |- context [Py.Qltb ?a ?b] =>
      let E := fresh "E" in
      destruct (Py.Qltb a b) eqn:E;
      [apply Qltb_lt in E | apply Qltb_ge in E]
    end; simpl; try lia; exfalso; lra.
Qed.

Lemma threshold_status_monotone_witness :
  59.9 <= 80
  /\ (status_rank (FleetHealthScore.get_status 59.9)
      <= status_rank (FleetHealthScore.get_status 80))%nat.
Proof.
  assert (H : 59.9 <= 80) by lra.
  split; [exact H|]. exact (proj1 (threshold_status_monotone 59.9 80 H)).
Defined.

End ScoreBounds.

(** * Pagination of get_metric_data *)

Section Pagination.
Import CloudWatchMetricClient CloudWatchQueries.

Lemma truthy_arg (tok : option string) :
  truthy tok = true -> (if truthy tok then tok else None) = tok.
Proof. intros ->. reflexivity. Qed.

Lemma get_metric_data_loop_linked fuel api queries tok resps next acc :
  (tok = None \/ truthy tok = true) ->
  linked api queries tok resps next ->
  get_metric_data_loop (length resps + fuel) api queries tok acc
  = get_metric_data_loop fuel api queries next (acc ++ results_of resps).
Proof.
  revert tok acc. induction resps as [|r resps IH]; intros tok acc Htok Hl; simpl in Hl.
  - subst next. unfold results_of. simpl. now rewrite app_nil_r.
  - destruct Hl as (Hr & Ht & Hl). simpl.
    assert (Harg : (if truthy tok then tok else None) = tok).
    { destruct Htok as [->|Htok]; [reflexivity | now apply truthy_arg]. }
    rewrite Harg, Hr, Ht. simpl.
    rewrite (IH _ _ (or_intror Ht) Hl). unfold results_of. simpl.
    now rewrite app_assoc.
Qed.

Lemma linked_next_truthy api queries tok resps next :
  (tok = None \/ truthy tok = true) ->
  linked api queries tok resps next ->
  next = None \/ truthy next = true.
Proof.
  revert tok. induction resps as [|r resps IH]; intros tok Htok Hl; simpl in Hl.
  - now subst.
  - destruct Hl as (_ & Ht & Hl). eapply IH; [right; exact Ht | exact Hl].
Qed.

(** X8: when the backend serves a chain of pages, each carrying the token
    of the next, that ends with a page without token (or with an empty
    one), [get_metric_data] returns the results of all the pages in order,
    as soon as it is allowed as many requests as there are pages. *)
Theorem get_metric_data_all_pages fuel api queries resps next last :
  linked api queries None resps next ->
  api queries next = inr last ->
  truthy (resp_NextToken last) = false ->
  length resps < fuel ->
  get_metric_data fuel api queries = Some (Ok (results_of (resps ++ [last]))).
Proof.
  intros Hl Hlast Hend Hfuel. unfold get_metric_data.
  replace fuel with (length resps + S (fuel - length resps - 1)) by lia.
  rewrite (get_metric_data_loop_linked _ _ _ _ _ _ _ (or_introl eq_refl) Hl).
  simpl.
  assert (Harg : (if truthy next then next else None) = next).
  { destruct (linked_next_truthy _ _ _ _ _ (or_introl eq_refl) Hl) as [->|Ht];
      [reflexivity | now apply truthy_arg]. }
  rewrite Harg, Hlast, Hend. simpl.
  unfold results_of. rewrite map_app, concat_app. simpl. now rewrite app_nil_r.
Qed.

Lemma get_metric_data_all_pages_witness :
  get_metric_data 2 Pages.two_pages []
  = Some (Ok (results_of ([Pages.first_page] ++ [Pages.last_page]))).
Proof.
  apply (get_metric_data_all_pages 2 Pages.two_pages [] [Pages.first_page]
           (Some "t1") Pages.last_page).
  - simpl. repeat split; reflexivity.
  - reflexivity.
  - reflexivity.
  - simpl. lia.
Defined.

(** X9: when a page request fails with a [ClientError], the results of the
    pages served before it are dropped: [get_metric_data] raises the
    [CloudWatchClientError] built from the error's code and message. *)
Theorem get_metric_data_failure_drops_pages fuel api queries resps next e :
  linked api queries None resps next ->
  api queries next = inl e ->
  length resps < fuel ->
  get_metric_data fuel api queries
  = Some (Raise (CloudWatchClientError
                   ("Failed to get metric data: "
                    +:+ default "Unknown" (ce_code e) +:+ " - "
                    +:+ default (ce_str e) (ce_message e)))).
Proof.
  intros Hl Hfail Hfuel. unfold get_metric_data.
  replace fuel with (length resps + S (fuel - length resps - 1)) by lia.
  rewrite (get_metric_data_loop_linked _ _ _ _ _ _ _ (or_introl eq_refl) Hl).
  simpl.
  assert (Harg : (if truthy next then next else None) = next).
  { destruct (linked_next_truthy _ _ _ _ _ (or_introl eq_refl) Hl) as [->|Ht];
      [reflexivity | now apply truthy_arg]. }
  now rewrite Harg, Hfail.
Qed.

Lemma get_metric_data_failure_drops_pages_witness :
  get_metric_data 2 Pages.second_page_fails []
  = Some (Raise (CloudWatchClientError
                   "Failed to get metric data: Throttling - Rate exceeded")).
Proof.
  apply (get_metric_data_failure_drops_pages 2 Pages.second_page_fails []
           [Pages.first_page] (Some "t1") Fixtures.throttled).
  - simpl. repeat split; reflexivity.
  - reflexivity.
  - simpl. lia.
Defined.




End Pagination.

(** * The query identifiers of query_instance_metrics *)

Section QueryIds.
Import CloudWatchMetricClient CloudWatchQueries.

Lemma string_app_assoc (a b c : string) : (a +:+ b) +:+ c = a +:+ (b +:+ c).
Proof.
  induction a as [|x a IH]; [reflexivity|].
  change (String x ((a +:+ b) +:+ c) = String x (a +:+ (b +:+ c))). now rewrite IH.
Qed.

Lemma digit_value_pretty_char (d : N) :
  (d < 10)%N -> digit_value (pretty_N_char d) = Some (Z.of_N d).
Proof.
  intros Hd.
  assert (d = 0 \/ d = 1 \/ d = 2 \/ d = 3 \/ d = 4 \/ d = 5 \/ d = 6 \/ d = 7
          \/ d = 8 \/ d = 9)%N as H by lia.
  repeat (destruct H as [->|H]; [reflexivity|]). now subst.
Qed.

Lemma digits_value_app (a b : string) (acc : Z) :
  digits_value (a +:+ b) acc = digits_value a acc ≫= digits_value b.
Proof.
  revert acc. induction a as [|c a IH]; intros acc; [reflexivity|].
  change (digits_value (String c (a +:+ b)) acc
          = digits_value (String c a) acc ≫= digits_value b).
  simpl. destruct (digit_value c); [apply IH | reflexivity].
Qed.

Lemma pretty_N_go_app (x : N) (s : string) :
  pretty_N_go x s = pretty_N_go x "" +:+ s.
Proof.
  revert s. induction (N.lt_wf_0 x) as [x _ IH]; intros s.
  destruct (decide (x = 0)%N) as [->|Hx]; [now rewrite !pretty_N_go_0|].
  assert (Hlt : (x `div` 10 < x)%N) by (apply N.div_lt; lia).
  rewrite (pretty_N_go_step x s), (pretty_N_go_step x "") by lia.
  rewrite (IH _ Hlt (String _ s)), (IH _ Hlt (String _ "")).
  now rewrite string_app_assoc.
Qed.

Lemma digits_value_pretty_N_go (x : N) :
  digits_value (pretty_N_go x "") 0 = Some (Z.of_N x).
Proof.
  induction (N.lt_wf_0 x) as [x _ IH].
  destruct (decide (x = 0)%N) as [->|Hx]; [reflexivity|].
  assert (Hlt : (x `div` 10 < x)%N) by (apply N.div_lt; lia).
  rewrite pretty_N_go_step by lia. rewrite pretty_N_go_app, digits_value_app.
  rewrite (IH _ Hlt). simpl.
  rewrite digit_value_pretty_char by (apply N.mod_lt; lia).
  f_equal. rewrite (N.div_mod x 10) at 3 by lia. lia.
Qed.

Lemma pretty_N_go_nonempty (x : N) : (0 < x)%N -> pretty_N_go x "" <> "".
Proof.
  intros Hx. rewrite pretty_N_go_step by exact Hx. rewrite pretty_N_go_app.
  destruct (pretty_N_go (x `div` 10) ""); discriminate.
Qed.

Lemma py_int_digits (s : string) (v : Z) :
  s <> "" -> digits_value s 0 = Some v -> py_int s = Some v.
Proof.
  intros Hs Hv. destruct s as [|c s]; [contradiction|].
  simpl in Hv. destruct (digit_value c) as [d|] eqn:Hd; [|discriminate].
  assert (Hgo : py_int (String c s) = digits_value (String c s) 0).
  { destruct c as [[] [] [] [] [] [] [] []]; try reflexivity;
      vm_compute in Hd; discriminate Hd. }
  rewrite Hgo. simpl. now rewrite Hd.
Qed.

(** The identifier of a query reads back as its index. *)
Lemma py_int_pretty (n : nat) : py_int (pretty n) = Some (Z.of_nat n).
Proof.
  unfold pretty, pretty_nat, pretty, pretty_N.
  destruct (decide (N.of_nat n = 0)%N) as [E|E].
  - replace n with 0 by lia. reflexivity.
  - apply py_int_digits; [apply pretty_N_go_nonempty; lia|].
    rewrite digits_value_pretty_N_go. f_equal. lia.
Qed.

Lemma datapoint_pretty i bids idx vals :
  Spec.datapoint i bids (mkMDResult (Some ("m" +:+ pretty idx)) (Some vals))
  = (instance_id ← py_index bids (Z.of_nat idx - Z.of_nat i);
     v ← head vals; Some (instance_id, v)).
Proof.
  unfold Spec.datapoint.
  change (default "" (res_Id (mkMDResult (Some ("m" +:+ pretty idx)) (Some vals))))
    with (String "m" (pretty idx)).
  cbv beta iota. rewrite py_int_pretty. reflexivity.
Qed.

Lemma py_index_nat {A} (l : list A) (j : nat) : py_index l (Z.of_nat j) = l !! j.
Proof.
  unfold py_index. rewrite (proj2 (Z.leb_le 0 (Z.of_nat j))) by lia.
  now rewrite Nat2Z.id.
Qed.

(** X12: a result whose identifier names a query at or after the end of
    the batch is ignored, but one that names a query from before the start
    of the batch is not: through Python's negative indices its value is
    stored for another instance of the batch. *)
Theorem stray_query_id_wraps_around
    (i idx : nat) (bids : list string) (v : Q) (vs : list Q)
    (results : gmap string (option Q)) :
  let r := mkMDResult (Some ("m" +:+ pretty idx)) (Some (v :: vs)) in
  (i + length bids <= idx -> apply_result i bids results r = results)
  /\ (forall x, i <= idx -> bids !! (idx - i) = Some x ->
      apply_result i bids results r = <[x := Some v]> results)
  /\ (forall x, idx < i -> i <= idx + length bids ->
      bids !! (length bids + idx - i) = Some x ->
      apply_result i bids results r = <[x := Some v]> results)
  /\ (idx + length bids < i -> apply_result i bids results r = results).
Proof.
  intros r. subst r. rewrite apply_result_datapoint, datapoint_pretty.
  repeat split.
  - intros H. replace (Z.of_nat idx - Z.of_nat i)%Z with (Z.of_nat (idx - i)) by lia.
    rewrite py_index_nat, lookup_ge_None_2 by lia. reflexivity.
  - intros x H Hx. replace (Z.of_nat idx - Z.of_nat i)%Z with (Z.of_nat (idx - i)) by lia.
    rewrite py_index_nat, Hx. reflexivity.
  - intros x H1 H2 Hx. unfold py_index.
    rewrite (proj2 (Z.leb_gt 0 _)) by lia.
    rewrite (proj2 (Z.leb_le _ _)) by lia.
    replace (Z.to_nat (Z.of_nat (length bids) + (Z.of_nat idx - Z.of_nat i)))
      with (length bids + idx - i) by lia.
    rewrite Hx. reflexivity.
  - intros H. unfold py_index.
    rewrite (proj2 (Z.leb_gt 0 _)) by lia.
    rewrite (proj2 (Z.leb_gt _ _)) by lia. reflexivity.
Qed.

Lemma zip_seq_drop {A} (s i : nat) (l : list A) :
  drop i (zip (seq s (length l)) l)
  = zip (seq (s + i) (length (drop i l))) (drop i l).
Proof.
  revert s l. induction i as [|i IH]; intros s l.
  - simpl. now rewrite Nat.add_0_r.
  - destruct l as [|x l]; [reflexivity|]. simpl.
    rewrite IH. now replace (S s + i) with (s + S i) by lia.
Qed.

Lemma zip_seq_take {A} (s n : nat) (l : list A) :
  take n (zip (seq s (length l)) l)
  = zip (seq s (length (take n l))) (take n l).
Proof.
  revert s l. induction n as [|n IH]; intros s l; [reflexivity|].
  destruct l as [|x l]; [reflexivity|]. simpl. now rewrite IH.
Qed.

Lemma slice_enumerate {A} (l : list A) (i n : nat) :
  slice (enumerate l) i (i + n)
  = zip (seq i (length (slice l i (i + n)))) (slice l i (i + n)).
Proof.
  rewrite !slice_step. unfold enumerate.
  rewrite zip_seq_drop, zip_seq_take. reflexivity.
Qed.

Lemma echo_batch series metric_name namespace period stat i prefix suffix
    (m : gmap string (option Q)) :
  fold_left (apply_result i (prefix ++ suffix))
    (map (fun q => mkMDResult (Some (q_Id q)) (Some (series (q_InstanceId q))))
       (map (fun '(idx, instance_id) =>
               mkQuery ("m" +:+ pretty idx) namespace metric_name instance_id
                 period stat true)
            (zip (seq (i + length prefix) (length suffix)) suffix)))
    m
  = fold_left (latest series) suffix m.
Proof.
  revert prefix m. induction suffix as [|x suffix IH]; intros prefix m; [reflexivity|].
  simpl. rewrite apply_result_datapoint, datapoint_pretty.
  replace (Z.of_nat (i + length prefix) - Z.of_nat i)%Z
    with (Z.of_nat (length prefix)) by lia.
  rewrite py_index_nat, list_lookup_middle by reflexivity. simpl.
  specialize (IH (prefix ++ [x])).
  rewrite <- app_assoc, length_app in IH. simpl in IH.
  replace (i + (length prefix + 1)) with (S (i + length prefix)) in IH by lia.
  rewrite <- IH. f_equal. unfold latest. destruct (series x); reflexivity.
Qed.

Lemma echo_batch_update series ids metric_name namespace period stat
    (m : gmap string (option Q)) (i : nat) :
  Spec.batch_update (echo series)
    (build_queries ids metric_name namespace period stat) ids m i
  = fold_left (latest series) (slice ids i (i + batch_size)) m.
Proof.
  unfold Spec.batch_update, echo, build_queries.
  assert (Hmap : forall (A B : Type) (f : A -> B) (l : list A) (a b : nat),
             slice (map f l) a b = map f (slice l a b)).
  { intros A B f l a b. unfold slice.
    change (map f l) with (f <$> l). rewrite <- fmap_drop, <- fmap_take. reflexivity. }
  rewrite Hmap, slice_enumerate.
  pose proof (echo_batch series metric_name namespace period stat i []
                (slice ids i (i + batch_size)) m) as H.
  cbn [app length] in H. rewrite Nat.add_0_r in H. exact H.
Qed.

Lemma fold_left_concat {A B} (f : A -> B -> A) (ls : list (list B)) (a : A) :
  fold_left f (concat ls) a = fold_left (fun a l => fold_left f l a) ls a.
Proof.
  revert a. induction ls as [|l ls IH]; intros a; simpl; [reflexivity|].
  now rewrite fold_left_app, IH.
Qed.

Lemma latest_keep series (m : gmap string (option Q)) (x k : string) :
  m !! k = Some (head (series k)) ->
  latest series m x !! k = Some (head (series k)).
Proof.
  intros Hm. unfold latest. destruct (series x) as [|v vs] eqn:E; [exact Hm|].
  destruct (decide (x = k)) as [->|Hne].
  - rewrite lookup_insert_eq, E. reflexivity.
  - now rewrite lookup_insert_ne.
Qed.

Lemma latest_hit series (m : gmap string (option Q)) (k : string) :
  (m !! k = Some None \/ m !! k = Some (head (series k))) ->
  latest series m k !! k = Some (head (series k)).
Proof.
  intros Hm. unfold latest. destruct (series k) as [|v vs] eqn:E.
  - destruct Hm as [Hm|Hm]; exact Hm.
  - now rewrite lookup_insert_eq.
Qed.

Lemma latest_inv series (m : gmap string (option Q)) (x k : string) :
  (m !! k = Some None \/ m !! k = Some (head (series k))) ->
  latest series m x !! k = Some None
  \/ latest series m x !! k = Some (head (series k)).
Proof.
  intros Hm. destruct (decide (x = k)) as [->|Hne].
  - right. now apply latest_hit.
  - unfold latest. destruct (series x); [exact Hm|].
    now rewrite lookup_insert_ne.
Qed.

Lemma latest_fold_keep series (l : list string) (m : gmap string (option Q)) (k : string) :
  m !! k = Some (head (series k)) ->
  fold_left (latest series) l m !! k = Some (head (series k)).
Proof.
  revert m. induction l as [|x l IH]; intros m Hm; simpl; [exact Hm|].
  apply IH. now apply latest_keep.
Qed.

Lemma latest_fold series (l : list string) (m : gmap string (option Q)) (k : string) :
  (m !! k = Some None \/ m !! k = Some (head (series k))) ->
  k ∈ l ->
  fold_left (latest series) l m !! k = Some (head (series k)).
Proof.
  revert m. induction l as [|x l IH]; intros m Hm Hin; simpl.
  - now apply not_elem_of_nil in Hin.
  - destruct (decide (x = k)) as [->|Hne].
    + apply latest_fold_keep. now apply latest_hit.
    + apply elem_of_cons in Hin as [->|Hin]; [contradiction|].
      apply IH; [now apply latest_inv | exact Hin].
Qed.

(** X11: against a backend that answers every query, under the query's own
    identifier, with the series of the query's instance,
    [query_instance_metrics] maps every instance to the first value of its
    series ([None] for an empty series), whatever the number of batches:
    the identifiers [m<idx>] and the batch offsets put every value back on
    its instance. *)
Theorem query_instance_metrics_echo
    (series : string -> list Q) (ids : list string)
    (metric_name namespace : string) (period : Z) (stat : string) :
  exists m,
    query_instance_metrics (echo series) ids metric_name namespace period stat
    = (Ok m,
       chunks_of (build_queries ids metric_name namespace period stat) batch_size)
    /\ dom m = list_to_set ids
    /\ forall iid, iid ∈ ids -> m !! iid = Some (head (series iid)).
Proof.
  assert (Hcw : Spec.cw_only (echo series)) by (intros qs e H; discriminate H).
  set (queries := build_queries ids metric_name namespace period stat).
  assert (Hrun : query_instance_metrics (echo series) ids metric_name namespace
                   period stat
                 = (Ok (fold_left (Spec.batch_update (echo series) queries ids)
                          (range_step (length queries) batch_size)
                          (initial_results ids)),
                    chunks_of queries batch_size)).
  { unfold query_instance_metrics. destruct ids as [|x ids']; [reflexivity|].
    fold queries. rewrite batch_loop_fold by exact Hcw. reflexivity. }
  eexists. split; [exact Hrun|].
  split; [apply batch_updates_dom, initial_results_dom|].
  intros iid Hin.
  assert (Hfold : fold_left (Spec.batch_update (echo series) queries ids)
                    (range_step (length queries) batch_size) (initial_results ids)
                  = fold_left (latest series) ids (initial_results ids)).
  { rewrite <- (chunks_of_concat ids batch_size) at 3 by (unfold batch_size; lia).
    rewrite fold_left_concat. unfold chunks_of.
    unfold queries at 2. rewrite build_queries_length.
    generalize (range_step (length ids) batch_size) as starts.
    generalize (initial_results ids) as m0.
    intros m0 starts. revert m0.
    induction starts as [|i starts IH]; intros m0; simpl; [reflexivity|].
    unfold queries. rewrite echo_batch_update. apply IH. }
  rewrite Hfold.
  apply latest_fold; [|exact Hin].
  left. rewrite initial_results_lookup. now rewrite decide_True.
Qed.

End QueryIds.

(** * The other SSM and EC2 queries *)

Section Inventory.
Import SSMQueries EC2Fleet.

Lemma fold_left_append {A B} (f : B -> list A) (ps : list B) (init : list A) :
  fold_left (fun acc p => acc ++ f p) ps init = init ++ concat (map f ps).
Proof.
  revert init. induction ps as [|p ps IH]; intros init; simpl.
  - now rewrite app_nil_r.
  - now rewrite IH, app_assoc.
Qed.

Lemma concat_map_map {A B C} (f : B -> C) (g : A -> list B) (ps : list A) :
  concat (map (fun p => map f (g p)) ps) = map f (concat (map g ps)).
Proof.
  induction ps as [|p ps IH]; simpl; [reflexivity|].
  now rewrite map_app, IH.
Qed.

Lemma summary_step_total (s : ComplianceSummary) (item : SummaryItem) :
  let s' := summary_step s item in
  (compliant s' + non_compliant s' + unknown s'
   = compliant s + non_compliant s + unknown s + 1)%Z
  /\ (compliant s <= compliant s')%Z
  /\ (non_compliant s <= non_compliant s')%Z
  /\ (unknown s <= unknown s')%Z.
Proof.
  unfold summary_step.
  destruct (String.eqb _ "COMPLIANT"); [simpl; lia|].
  destruct (String.eqb _ "NON_COMPLIANT"); simpl; lia.
Qed.

Lemma summary_fold_total (items : list SummaryItem) (s : ComplianceSummary) :
  let s' := fold_left summary_step items s in
  (compliant s' + non_compliant s' + unknown s'
   = compliant s + non_compliant s + unknown s + Z.of_nat (length items))%Z
  /\ (compliant s <= compliant s')%Z
  /\ (non_compliant s <= non_compliant s')%Z
  /\ (unknown s <= unknown s')%Z.
Proof.
  revert s. induction items as [|item items IH]; intros s; simpl.
  - lia.
  - destruct (IH (summary_step s item)) as (H1 & H2 & H3 & H4).
    destruct (summary_step_total s item) as (G1 & G2 & G3 & G4).
    simpl in G1, G2, G3, G4. lia.
Qed.

(** X13: [get_compliance_summary] puts every item of the response in
    exactly one of its three counts: the counts are non-negative and add up
    to the number of items; a [ClientError] becomes an [SSMClientError]
    carrying its code and message. *)
Theorem compliance_summary_counts_every_item
    (response : ClientError + option (list SummaryItem)) :
  match response with
  | inr items =>
    exists s, get_compliance_summary response = Ok s
      /\ (0 <= compliant s)%Z /\ (0 <= non_compliant s)%Z /\ (0 <= unknown s)%Z
      /\ (compliant s + non_compliant s + unknown s
          = Z.of_nat (length (default [] items)))%Z
  | inl e =>
    get_compliance_summary response
    = Raise (SSMClientError
               ("Failed to get compliance summary: "
                +:+ default "Unknown" (ce_code e) +:+ " - "
                +:+ default (ce_str e) (ce_message e)))
  end.
Proof.
  destruct response as [e|items]; [reflexivity|].
  eexists. split; [reflexivity|].
  destruct (summary_fold_total (default [] items) (mkSummary 0 0 0))
    as (H1 & H2 & H3 & H4).
  simpl in H1, H2, H3, H4. repeat split; lia.
Qed.

(** X14: when the listing succeeds, [get_fleet_instances] returns one
    observation for every instance of every reservation of every page, in
    order; an instance that is not running has an hourly cost of 0, a
    running one has the cost of its type, and no utilization or compliance
    value is set yet.  When a page request fails, nothing is returned: the
    call raises an [SSMClientError]. *)
Theorem fleet_instances_cost_only_when_running
    (cost_per_hour : gmap string Q) (describe : string -> Paginator Page)
    (fleet_name : string) :
  let all := concat (map page_instances (pg_pages (describe fleet_name))) in
  match pg_failure (describe fleet_name) with
  | None =>
    exists instances,
      get_fleet_instances cost_per_hour describe fleet_name = Ok instances
      /\ map instance_id instances = map (fun i => default "" (ec2_InstanceId i)) all
      /\ Forall (fun i =>
                   (state i <> "running" -> hourly_cost i = 0.0%Q)
                   /\ (state i = "running" ->
                       hourly_cost i
                       = ConfigCost.get_instance_cost cost_per_hour (instance_type i))
                   /\ cpu_utilization i = None /\ memory_utilization i = None
                   /\ disk_utilization i = None /\ is_compliant i = None)
                instances
  | Some e =>
    get_fleet_instances cost_per_hour describe fleet_name
    = Raise (SSMClientError
               ("Failed to get fleet instances: "
                +:+ default "Unknown" (ce_code e) +:+ " - "
                +:+ default (ce_str e) (ce_message e)))
  end.
Proof.
  intros all. unfold get_fleet_instances.
  destruct (pg_failure (describe fleet_name)) as [e|]; [reflexivity|].
  eexists. split; [reflexivity|].
  rewrite fold_left_append, concat_map_map. simpl. fold all. split.
  - rewrite map_map. reflexivity.
  - apply Forall_forall. intros i Hi.
    apply list_elem_of_In, in_map_iff in Hi as (inst & <- & _).
    unfold metrics_of. simpl.
    destruct (String.eqb_spec (nested (ec2_State inst)) "running") as [E|E];
      repeat split; try reflexivity; intros; try contradiction; congruence.
Qed.





(** X16: when the listing succeeds, [get_managed_instances] returns one
    entry for every instance of every page, in order, with the documented
    defaults for missing keys; when a page request fails it returns nothing
    and raises an [SSMClientError]. *)
Theorem managed_instances_all_pages
    (pager : Paginator (option (list InstanceInformation))) :
  match pg_failure pager with
  | None =>
    get_managed_instances pager
    = Ok (map managed_of (concat (map (default []) (pg_pages pager))))
  | Some e =>
    get_managed_instances pager
    = Raise (SSMClientError
               ("Failed to get managed instances: "
                +:+ default "Unknown" (ce_code e) +:+ " - "
                +:+ default (ce_str e) (ce_message e)))
  end.
Proof.
  unfold get_managed_instances. destruct (pg_failure pager); [reflexivity|].
  rewrite fold_left_append. simpl. f_equal.
  induction (pg_pages pager) as [|p ps IH]; simpl; [reflexivity|].
  now rewrite map_app, IH.
Qed.

End Inventory.

(** * Every instance is counted once *)

Section StateCounts.
Import EC2InstanceClient EC2Fleet.

Lemma total_count_insert (m : gmap string Z) (k : string) (v : Z) :
  m !! k = None -> total_count (<[k := v]> m) = (v + total_count m)%Z.
Proof.
  intros Hk. unfold total_count.
  apply (map_fold_insert_L (fun _ n acc => (n + acc)%Z)); [|exact Hk].
  intros; lia.
Qed.

Lemma total_count_update (m : gmap string Z) (k : string) (n v : Z) :
  m !! k = Some n -> total_count (<[k := v]> m) = (total_count m - n + v)%Z.
Proof.
  intros Hk.
  rewrite <- (insert_delete_eq m k v) by exact Hk.
  rewrite <- (insert_delete_id m k n Hk) at 2.
  rewrite !total_count_insert by apply lookup_delete_eq. lia.
Qed.

Lemma total_count_instance (m : gmap string Z) (inst : InstanceMetrics) :
  total_count (count_instance m inst) = (total_count m + 1)%Z.
Proof.
  unfold count_instance.
  destruct (m !! lower (state inst)) as [n|] eqn:E.
  - rewrite (total_count_update _ _ n) by exact E. lia.
  - rewrite total_count_insert by exact E. lia.
Qed.

Lemma total_count_initial : total_count initial_counts = 0%Z.
Proof.
  unfold initial_counts.
  repeat (rewrite total_count_insert by reflexivity).
  reflexivity.
Qed.

(** X17: the counts returned by [get_instance_counts_by_state] add up to
    the number of instances: every instance is counted under exactly one
    state, also one whose state is none of the six listed states. *)
Theorem instance_counts_add_up (instances : list InstanceMetrics) :
  total_count (get_instance_counts_by_state instances)
  = Z.of_nat (length instances).
Proof.
  unfold get_instance_counts_by_state.
  assert (G : forall m, total_count (fold_left count_instance instances m)
                        = (total_count m + Z.of_nat (length instances))%Z).
  { induction instances as [|inst instances IH]; intros m; simpl fold_left.
    - simpl. lia.
    - rewrite IH, total_count_instance. simpl length. lia. }
  rewrite G, total_count_initial. lia.
Qed.

End StateCounts.

(** * The snapshot's averages and compliance counts *)

Section SnapshotValues.
Import Handler.
Local Open Scope Q_scope.

Lemma sum_left_bounds (l : list Q) (a : Q) :
  Forall (fun v => 0 <= v <= 100) l ->
  a <= fold_left Qplus l a
  /\ fold_left Qplus l a <= a + 100 * inject_Z (Z.of_nat (length l)).
Proof.
  intros Hl. revert a. induction Hl as [|v l [Hv0 Hv1] _ IH]; intros a.
  - simpl fold_left. simpl length. change (inject_Z (Z.of_nat 0)) with 0. lra.
  - simpl fold_left. destruct (IH (a + v)) as [I1 I2]. simpl length.
    rewrite Nat2Z.inj_succ. unfold Z.succ. rewrite inject_Z_plus.
    change (inject_Z 1) with 1. lra.
Qed.

Lemma average_range (values : list Q) :
  Forall (fun v => 0 <= v <= 100) values ->
  exists a, average values = Ok a /\ 0 <= a <= 100.
Proof.
  intros Hl. unfold average. destruct values as [|x values].
  - eexists. split; [reflexivity|]. split; discriminate.
  - set (l := x :: values) in *.
    assert (Hn : 0 < inject_Z (Z.of_nat (length l))).
    { change 0 with (inject_Z 0). rewrite <- Zlt_Qlt. subst l. simpl length. lia. }
    rewrite div_ok by lra.
    eexists. split; [reflexivity|].
    destruct (sum_left_bounds l 0 Hl) as [S1 S2]. unfold sum. split.
    + apply (round_lower 0). change (inject_Z 0) with 0.
      apply Qle_shift_div_l; [exact Hn | lra].
    + apply (round_upper 100). change (inject_Z 100) with 100.
      apply Qle_shift_div_r; [exact Hn | lra].
Qed.

Lemma percentages_values (field : InstanceMetrics -> option Q) instances :
  percentages field instances = true ->
  Forall (fun v => 0 <= v <= 100)
    (omap field (filter (fun i => state i = "running"%string) instances)).
Proof.
  unfold percentages.
  induction (filter (fun i => state i = "running"%string) instances) as [|i l IH];
    intros H; simpl in H |- *.
  - constructor.
  - apply andb_true_iff in H as [Hi Hl]. destruct (field i) as [v|].
    + constructor; [|auto]. apply andb_true_iff in Hi as [H0 H1].
      split; now apply Qle_bool_iff.
    + auto.
Qed.

(** What [_aggregate_instance_metrics] returns, field by field. *)
Lemma aggregate_instance_metrics_fields instances state_counts compliance_data :
  let running := filter (fun i => state i = "running"%string) instances in
  let counts :=
    fold_left count_status (map snd (map_to_list compliance_data)) (0%Z, 0%Z) in
  exists a1 a2 a3 cost,
    _aggregate_instance_metrics instances state_counts compliance_data
    = Ok (mkFleetMetrics (Z.of_nat (length instances))
            (get0 state_counts "running") (get0 state_counts "stopped")
            (get0 state_counts "pending")
            a1 a2 a3 counts.1 counts.2 cost instances)
    /\ match running with
       | [] => a1 = 0.0 /\ a2 = 0.0 /\ a3 = 0.0 /\ cost = 0.0
       | _ => average (omap cpu_utilization running) = Ok a1
              /\ average (omap memory_utilization running) = Ok a2
              /\ average (omap disk_utilization running) = Ok a3
              /\ cost = sum (map hourly_cost running)
       end.
Proof.
  intros running counts. unfold _aggregate_instance_metrics. fold running.
  destruct running as [|r rs].
  - exists 0.0, 0.0, 0.0, 0.0. split; [reflexivity | repeat split].
  - destruct (average_total (omap cpu_utilization (r :: rs))) as (a1 & E1).
    destruct (average_total (omap memory_utilization (r :: rs))) as (a2 & E2).
    destruct (average_total (omap disk_utilization (r :: rs))) as (a3 & E3).
    exists a1, a2, a3, (sum (map hourly_cost (r :: rs))).
    rewrite E1, E2, E3. split; [reflexivity | repeat split].
Qed.

Lemma count_status_fold (l : list ComplianceStatus.t) (a b : Z) :
  fold_left count_status l (a, b)
  = ((a + Z.of_nat (length (filter (fun s => s = ComplianceStatus.COMPLIANT) l)))%Z,
     (b + Z.of_nat (length (filter (fun s => s = ComplianceStatus.NON_COMPLIANT) l)))%Z).
Proof.
  revert a b. induction l as [|s l IH]; intros a b.
  - simpl. f_equal; lia.
  - simpl fold_left. destruct s; unfold count_status at 2; simpl fst; simpl snd;
      rewrite IH, !filter_cons; simpl; f_equal; lia.
Qed.

Lemma status_count_size (st : ComplianceStatus.t)
    (m : gmap string ComplianceStatus.t) :
  length (filter (fun s => s = st) (map snd (map_to_list m)))
  = size (filter (fun kv : string * ComplianceStatus.t => kv.2 = st) m).
Proof.
  induction m as [|k x m Hk IH] using map_ind.
  - now rewrite map_to_list_empty, map_filter_empty, map_size_empty.
  - assert (Hp : map snd (map_to_list (<[k := x]> m)) ≡ₚ x :: map snd (map_to_list m)).
    { rewrite map_to_list_insert by exact Hk. reflexivity. }
    rewrite Hp, filter_cons.
    destruct (decide (x = st)) as [->|Hne].
    + rewrite map_filter_insert_True by reflexivity.
      rewrite map_size_insert_None by (now rewrite map_lookup_filter_None; left).
      simpl. now rewrite IH.
    + rewrite map_filter_insert_False by exact Hne.
      rewrite delete_id by exact Hk.
      exact IH.
Qed.

Lemma status_counts_le (l : list ComplianceStatus.t) :
  (length (filter (fun s => s = ComplianceStatus.COMPLIANT) l)
   + length (filter (fun s => s = ComplianceStatus.NON_COMPLIANT) l)
   <= length l)%nat.
Proof.
  induction l as [|s l IH]; [simpl; lia|].
  rewrite !filter_cons. destruct s; simpl; lia.
Qed.

(** The two compliance counts of a snapshot. *)
Lemma aggregate_compliance_counts instances state_counts compliance_data fm :
  _aggregate_instance_metrics instances state_counts compliance_data = Ok fm ->
  compliant_instances fm
  = Z.of_nat (size (filter (fun kv : string * ComplianceStatus.t =>
                              kv.2 = ComplianceStatus.COMPLIANT) compliance_data))
  /\ non_compliant_instances fm
     = Z.of_nat (size (filter (fun kv : string * ComplianceStatus.t =>
                                 kv.2 = ComplianceStatus.NON_COMPLIANT) compliance_data))
  /\ (compliant_instances fm + non_compliant_instances fm
      <= Z.of_nat (size compliance_data))%Z.
Proof.
  destruct (aggregate_instance_metrics_fields instances state_counts compliance_data)
    as (a1 & a2 & a3 & cost & -> & _).
  intros [= <-]. cbn [compliant_instances non_compliant_instances].
  rewrite count_status_fold. cbn [fst snd].
  rewrite <- !status_count_size.
  pose proof (status_counts_le (map snd (map_to_list compliance_data))) as Hle.
  rewrite length_map, length_map_to_list in Hle.
  repeat split; lia.
Qed.

(** X18: in the snapshot of [_aggregate_instance_metrics], the compliant
    count is the number of entries of the compliance dictionary with status
    COMPLIANT and the non-compliant count the number with status
    NON_COMPLIANT; entries with status UNKNOWN are in neither, so the two
    counts add up to at most the size of the dictionary. *)
Theorem snapshot_compliance_counts instances state_counts
    (compliance_data : gmap string ComplianceStatus.t) :
  exists fm,
    _aggregate_instance_metrics instances state_counts compliance_data = Ok fm
    /\ compliant_instances fm
       = Z.of_nat (size (filter (fun kv : string * ComplianceStatus.t =>
                                   kv.2 = ComplianceStatus.COMPLIANT) compliance_data))
    /\ non_compliant_instances fm
       = Z.of_nat (size (filter (fun kv : string * ComplianceStatus.t =>
                                   kv.2 = ComplianceStatus.NON_COMPLIANT)
                           compliance_data))
    /\ (compliant_instances fm + non_compliant_instances fm
        <= Z.of_nat (size compliance_data))%Z.
Proof.
  destruct (aggregate_instance_metrics_counts instances state_counts compliance_data)
    as (fm & Hfm & _).
  exists fm. split; [exact Hfm|].
  exact (aggregate_compliance_counts _ _ _ _ Hfm).
Qed.

Lemma aggregate_averages_range instances state_counts compliance_data fm :
  _aggregate_instance_metrics instances state_counts compliance_data = Ok fm ->
  (percentages cpu_utilization instances = true ->
   0 <= avg_cpu_utilization fm <= 100)
  /\ (percentages memory_utilization instances = true ->
      0 <= avg_memory_utilization fm <= 100)
  /\ (percentages disk_utilization instances = true ->
      0 <= avg_disk_utilization fm <= 100).
Proof.
  destruct (aggregate_instance_metrics_fields instances state_counts compliance_data)
    as (a1 & a2 & a3 & cost & -> & Hav).
  intros [= <-].
  cbn [avg_cpu_utilization avg_memory_utilization avg_disk_utilization].
  pose proof (percentages_values cpu_utilization instances) as P1.
  pose proof (percentages_values memory_utilization instances) as P2.
  pose proof (percentages_values disk_utilization instances) as P3.
  destruct (filter (fun i => state i = "running"%string) instances) as [|r rs].
  - destruct Hav as (-> & -> & -> & _).
    repeat split; discriminate.
  - destruct Hav as (E1 & E2 & E3 & _).
    split; [|split]; intros Hp.
    + destruct (average_range _ (P1 Hp)) as (a & Ea & Ha). congruence.
    + destruct (average_range _ (P2 Hp)) as (a & Ea & Ha). congruence.
    + destruct (average_range _ (P3 Hp)) as (a & Ea & Ha). congruence.
Qed.

(** X19: when the CPU, memory and disk values of the running instances are
    percentages (between 0 and 100), so are the three averages of the
    snapshot; an average over no value is 0. *)
Theorem snapshot_averages_are_percentages instances state_counts compliance_data :
  percentages cpu_utilization instances = true ->
  percentages memory_utilization instances = true ->
  percentages disk_utilization instances = true ->
  exists fm,
    _aggregate_instance_metrics instances state_counts compliance_data = Ok fm
    /\ 0 <= avg_cpu_utilization fm <= 100
    /\ 0 <= avg_memory_utilization fm <= 100
    /\ 0 <= avg_disk_utilization fm <= 100.
Proof.
  intros H1 H2 H3.
  destruct (aggregate_instance_metrics_counts instances state_counts compliance_data)
    as (fm & Hfm & _).
  exists fm. split; [exact Hfm|].
  destruct (aggregate_averages_range _ _ _ _ Hfm) as (A1 & A2 & A3). auto.
Qed.

Lemma snapshot_averages_are_percentages_witness :
  exists fm,
    _aggregate_instance_metrics Fleet.observed ∅ ∅ = Ok fm
    /\ 0 <= avg_cpu_utilization fm <= 100
    /\ 0 <= avg_memory_utilization fm <= 100
    /\ 0 <= avg_disk_utilization fm <= 100.
Proof.
  apply (snapshot_averages_are_percentages Fleet.observed ∅ ∅); reflexivity.
Defined.

End SnapshotValues.

(** * The handler: collection *)

Section Collection.
Import Handler Lambda.










End Collection.

(** * The handler: publication and response *)

Section Publication.
Import CloudWatchMetricClient Lambda.







End Publication.
